(** * Dart-Code: the content overlay tracker ([FileChangeHandler])

    A shallow embedding of [src/analysis/file_change_handler.ts].  The
    handler listens to the editor's open / change / close events and
    forwards them to the analysis server as [analysis.updateContent]
    requests.  Its only state of its own is the set [filesWarnedAbout];
    everything it does to the outside world (requests to the analyzer,
    warning messages shown to the user) is recorded as a list of effects,
    in the order the source performs them.

    The second part embeds the helpers the integration tests share
    ([test/helpers.ts]): naming of log files, polling, deferred clean-up,
    finding marked places in the document, and checks on symbols and
    completions. *)

From Stdlib Require Import ZArith Ascii.
From stdpp Require Import base gmap strings list.
From Equations Require Import Equations.

Local Open Scope Z_scope.

(** ** The editor's types ([vscode]), as far as the handler reads them *)

Module vs.

Record Uri := { scheme : string; path : string }.

(** [getText] is the document's full current text. *)
Record TextDocument := {
  uri : Uri;
  languageId : string;
  getText : string;
}.

Record TextDocumentContentChangeEvent := {
  rangeOffset : Z;
  rangeLength : Z;
  text : string;
}.

Record TextDocumentChangeEvent := {
  document : TextDocument;
  contentChanges : list TextDocumentContentChangeEvent;
}.

End vs.

(** ** The protocol's types ([analysis_server_types]), as the handler
    builds them *)

Module AS.

Record SourceEdit := {
  id : string;
  length : Z;
  offset : Z;
  replacement : string;
}.

(** The three overlay records are told apart by their [type] field. *)
Inductive ContentOverlay :=
| AddContentOverlay (content : string)
| ChangeContentOverlay (edits : list SourceEdit)
| RemoveContentOverlay.

Definition type (o : ContentOverlay) : string :=
  match o with
  | AddContentOverlay _ => "add"
  | ChangeContentOverlay _ => "change"
  | RemoveContentOverlay => "remove"
  end.

(** The [files] object of a request: a map from file path to overlay. *)
Record AnalysisUpdateContentRequest := {
  files : gmap string ContentOverlay;
}.

End AS.

(** ** What the handler reads from its surroundings

    [util.isAnalyzable], [util.isWithinWorkspace], [fsPath] and the
    configuration flag live in modules the handler imports; they can
    answer differently from one event to the next (settings and workspace
    folders change), so every call of the handler receives the answers
    that are current at that moment. *)

Record Env := {
  isAnalyzable : vs.TextDocument -> bool;
  isWithinWorkspace : string -> bool;
  fsPath : vs.Uri -> string;
  warnWhenEditingFilesOutsideWorkspace : bool;
}.

(** ** What the handler does to its surroundings *)

Inductive Effect :=
| showWarningMessage (message : string)
| analysisUpdateContent (request : AS.AnalysisUpdateContentRequest).

(** The editor's events the constructor subscribes to. *)
Inductive Event :=
| DidOpenTextDocument (td : vs.TextDocument)
| DidChangeTextDocument (e : vs.TextDocumentChangeEvent)
| DidCloseTextDocument (td : vs.TextDocument).

Definition eventDocument (ev : Event) : vs.TextDocument :=
  match ev with
  | DidOpenTextDocument td => td
  | DidChangeTextDocument e => vs.document e
  | DidCloseTextDocument td => td
  end.

(** ** The handler *)

Module FileChangeHandler.

Record t := { filesWarnedAbout : gset string }.

Definition outsideWorkspaceWarning (filePath : string) : string :=
  "You are modifying a file outside of your current workspace: " +:+ filePath.

Definition convertChange (document : vs.TextDocument)
    (change : vs.TextDocumentContentChangeEvent) : AS.SourceEdit :=
  {| AS.id := "";
     AS.length := vs.rangeLength change;
     AS.offset := vs.rangeOffset change;
     AS.replacement := vs.text change |}.

Definition onDidOpenTextDocument (env : Env) (this : t)
    (document : vs.TextDocument) : t * list Effect :=
  if negb (isAnalyzable env document) then (this, [])
  else
    let files : gmap string AS.ContentOverlay :=
      <[ fsPath env (vs.uri document) :=
           AS.AddContentOverlay (vs.getText document) ]> ∅ in
    (this, [analysisUpdateContent {| AS.files := files |}]).

Definition onDidChangeTextDocument (env : Env) (this : t)
    (e : vs.TextDocumentChangeEvent) : t * list Effect :=
  if negb (isAnalyzable env (vs.document e)) then (this, [])
  else if (List.length (vs.contentChanges e) =? 0)%nat then (this, [])
  else
    let filePath := fsPath env (vs.uri (vs.document e)) in
    let '(this', warning) :=
      if warnWhenEditingFilesOutsideWorkspace env
         && negb (bool_decide (filePath ∈ filesWarnedAbout this))
         && negb (isWithinWorkspace env filePath)
      then ({| filesWarnedAbout := {[ filePath ]} ∪ filesWarnedAbout this |},
            [showWarningMessage (outsideWorkspaceWarning filePath)])
      else (this, []) in
    let files : gmap string AS.ContentOverlay :=
      <[ filePath :=
           AS.ChangeContentOverlay
             (map (convertChange (vs.document e)) (vs.contentChanges e)) ]> ∅ in
    (this', warning ++ [analysisUpdateContent {| AS.files := files |}]).

Definition onDidCloseTextDocument (env : Env) (this : t)
    (document : vs.TextDocument) : t * list Effect :=
  if negb (isAnalyzable env document) then (this, [])
  else
    let files : gmap string AS.ContentOverlay :=
      <[ fsPath env (vs.uri document) := AS.RemoveContentOverlay ]> ∅ in
    (this, [analysisUpdateContent {| AS.files := files |}]).

(** The subscriptions made in the constructor: each event goes to its
    method. *)
Definition handle (env : Env) (this : t) (ev : Event) : t * list Effect :=
  match ev with
  | DidOpenTextDocument td => onDidOpenTextDocument env this td
  | DidChangeTextDocument e => onDidChangeTextDocument env this e
  | DidCloseTextDocument td => onDidCloseTextDocument env this td
  end.

(** A run of the handler over the events the editor fires, each with
    the surroundings current when it fires; effects accumulate in
    order. *)
Fixpoint run (this : t) (events : list (Env * Event)) : t * list Effect :=
  match events with
  | [] => (this, [])
  | (env, ev) :: rest =>
      let '(this', out) := handle env this ev in
      let '(this'', out') := run this' rest in
      (this'', out ++ out')
  end.

(** [new FileChangeHandler(analyzer)]: the set starts empty and the
    already-open documents are handled as if they were opened now. *)
Definition constructor (env : Env) (textDocuments : list vs.TextDocument)
    : t * list Effect :=
  run {| filesWarnedAbout := ∅ |}
      (map (fun td => (env, DidOpenTextDocument td)) textDocuments).

(** A whole session: construction, then the events. *)
Definition session (env : Env) (textDocuments : list vs.TextDocument)
    (events : list (Env * Event)) : t * list Effect :=
  let '(this, out) := constructor env textDocuments in
  let '(this', out') := run this events in
  (this', out ++ out').

End FileChangeHandler.

Import FileChangeHandler.

Arguments outsideWorkspaceWarning : simpl never.

(** ** Reading a trace of effects *)

(** The requests sent to the analyzer, in order. *)
Fixpoint overlaysOf (out : list Effect) : list AS.AnalysisUpdateContentRequest :=
  match out with
  | [] => []
  | analysisUpdateContent r :: rest => r :: overlaysOf rest
  | showWarningMessage _ :: rest => overlaysOf rest
  end.

(** How many times the warning for [filePath] was shown. *)
Fixpoint warningsFor (filePath : string) (out : list Effect) : nat :=
  match out with
  | [] => 0%nat
  | showWarningMessage m :: rest =>
      ((if bool_decide (m = outsideWorkspaceWarning filePath) then 1 else 0)
       + warningsFor filePath rest)%nat
  | analysisUpdateContent _ :: rest => warningsFor filePath rest
  end.

(** The [type] fields of the overlays sent, request by request and, inside
    a request, in the order of [map_to_list]. *)
Definition overlayTypes (out : list Effect) : list string :=
  r ← overlaysOf out; (AS.type ∘ snd) <$> map_to_list (AS.files r).

(** ** Replaying edits

    The handler never applies an edit itself: the editor applies the
    change records to its buffer before it fires the event, and the
    analysis server applies the source edits to its overlay when the
    request arrives.  Both read a batch as a list of (offset, length,
    replacement) triples; [applyBatch] is the way such a batch rewrites a
    text, the same on both sides. *)

Definition Replacement : Type := Z * Z * string.

Definition changeReplacement (c : vs.TextDocumentContentChangeEvent)
    : Replacement :=
  (vs.rangeOffset c, vs.rangeLength c, vs.text c).

Definition editReplacement (ed : AS.SourceEdit) : Replacement :=
  (AS.offset ed, AS.length ed, AS.replacement ed).

Module Editor.

(** The document after the editor applied one batch of changes. *)
Definition edit (applyBatch : list Replacement -> string -> string)
    (td : vs.TextDocument)
    (changes : list vs.TextDocumentContentChangeEvent) : vs.TextDocument :=
  {| vs.uri := vs.uri td;
     vs.languageId := vs.languageId td;
     vs.getText := applyBatch (map changeReplacement changes) (vs.getText td) |}.

(** The change events fired for a sequence of batches, each carrying the
    document as it is after its batch, and the document at the end. *)
Fixpoint fire (applyBatch : list Replacement -> string -> string)
    (td : vs.TextDocument)
    (batches : list (list vs.TextDocumentContentChangeEvent))
    : list vs.TextDocumentChangeEvent * vs.TextDocument :=
  match batches with
  | [] => ([], td)
  | changes :: rest =>
      let td' := edit applyBatch td changes in
      let '(events, final) := fire applyBatch td' rest in
      ({| vs.document := td'; vs.contentChanges := changes |} :: events, final)
  end.

End Editor.

Module Server.

(** One request replayed on the content of [filePath]: a change overlay
    rewrites it with its edits; nothing else is replayed here. *)
Definition replayRequest (applyBatch : list Replacement -> string -> string)
    (filePath : string) (content : string)
    (r : AS.AnalysisUpdateContentRequest) : string :=
  match AS.files r !! filePath with
  | Some (AS.ChangeContentOverlay edits) =>
      applyBatch (map editReplacement edits) content
  | _ => content
  end.

(** The requests replayed in the order they were sent, each batch on the
    content the batches before it left. *)
Definition replay (applyBatch : list Replacement -> string -> string)
    (filePath : string) (content : string)
    (requests : list AS.AnalysisUpdateContentRequest) : string :=
  fold_left (replayRequest applyBatch filePath) requests content.

End Server.

(** A batch applied edit after edit, each on the result of the one before. *)

Definition replaceRange (offset length : Z) (replacement content : string)
    : string :=
  let o := Z.to_nat offset in
  let l := Z.to_nat length in
  String.substring 0 o content
    +:+ replacement
    +:+ String.substring (o + l) (String.length content - (o + l)) content.

Definition applySequence (batch : list Replacement) (content : string) : string :=
  fold_left (fun t '(o, l, r) => replaceRange o l r t) batch content.

(** ** A sample surrounding, used to run the handler on concrete inputs *)

Definition sampleEnv : Env :=
  {| isAnalyzable := fun td => bool_decide (vs.languageId td = "dart");
     isWithinWorkspace := fun p => bool_decide (p = "/ws/main.dart");
     fsPath := vs.path;
     warnWhenEditingFilesOutsideWorkspace := true |}.

Definition sampleDoc (p content : string) : vs.TextDocument :=
  {| vs.uri := {| vs.scheme := "file"; vs.path := p |};
     vs.languageId := "dart";
     vs.getText := content |}.

Definition sampleChange : vs.TextDocumentContentChangeEvent :=
  {| vs.rangeOffset := 0; vs.rangeLength := 1; vs.text := "ab" |}.

(** ** The open, change, close scenario *)

Definition scenarioDoc (u : vs.Uri) (lang content : string) : vs.TextDocument :=
  {| vs.uri := u; vs.languageId := lang; vs.getText := content |}.

Definition scenarioChange : vs.TextDocumentContentChangeEvent :=
  {| vs.rangeOffset := 0; vs.rangeLength := 1; vs.text := "ab" |}.

(** The events of the scenario: D is opened with text "a", its first
    character is replaced by "ab" (so the document reads "ab" when the
    change event fires), and D is closed. *)
Definition scenario (env : Env) (u : vs.Uri) (lang : string)
    : list (Env * Event) :=
  [ (env, DidOpenTextDocument (scenarioDoc u lang "a"));
    (env, DidChangeTextDocument
            {| vs.document := scenarioDoc u lang "ab";
               vs.contentChanges := [scenarioChange] |});
    (env, DidCloseTextDocument (scenarioDoc u lang "ab")) ].

(** The warning messages shown, in order. *)
Fixpoint warningsOf (out : list Effect) : list string :=
  match out with
  | [] => []
  | showWarningMessage m :: rest => m :: warningsOf rest
  | analysisUpdateContent _ :: rest => warningsOf rest
  end.

(** A change event that makes the handler warn when its path was not warned
    about before: the setting is on, the document is analyzable, something
    changed, and the path is outside the workspace. *)
Definition warrantsWarning (env : Env) (e : vs.TextDocumentChangeEvent) : bool :=
  isAnalyzable env (vs.document e)
  && negb (List.length (vs.contentChanges e) =? 0)%nat
  && warnWhenEditingFilesOutsideWorkspace env
  && negb (isWithinWorkspace env (fsPath env (vs.uri (vs.document e)))).

(** ** The test helpers ([test/helpers.ts])

    The helpers the tests share: naming of log files and polling for a
    condition. *)

Module helpers.

(** *** [filenameSafe]

    [input.replace(/[^a-z0-9]+/gi, "_").toLowerCase()].  The pattern,
    case-insensitive, matches a maximal run of characters that are not
    ASCII letters or digits; every character beyond ASCII is in such a
    run. *)

Definition isAlphanumeric (c : ascii) : bool :=
  let n := nat_of_ascii c in
  ((48 <=? n) && (n <=? 57) || (65 <=? n) && (n <=? 90)
   || (97 <=? n) && (n <=? 122))%nat.

(** The global replace, left to right; [inRun] says that the character
    before belongs to a run whose underscore is already written. *)
Fixpoint replaceRuns (inRun : bool) (input : string) : string :=
  match input with
  | EmptyString => EmptyString
  | String c rest =>
      if isAlphanumeric c then String c (replaceRuns false rest)
      else if inRun then replaceRuns true rest
      else String "_"%char (replaceRuns true rest)
  end.

(** [toLowerCase] on the characters that are left after the replace:
    ASCII letters, digits and underscores. *)
Definition toLowerCaseChar (c : ascii) : ascii :=
  let n := nat_of_ascii c in
  if ((65 <=? n) && (n <=? 90))%nat then ascii_of_nat (n + 32) else c.

Fixpoint toLowerCase (s : string) : string :=
  match s with
  | EmptyString => EmptyString
  | String c rest => String (toLowerCaseChar c) (toLowerCase rest)
  end.

Definition filenameSafe (input : string) : string :=
  toLowerCase (replaceRuns false input).

(** What a safe name is made of. *)
Definition isSafeChar (c : ascii) : bool :=
  let n := nat_of_ascii c in
  ((48 <=? n) && (n <=? 57) || (97 <=? n) && (n <=? 122) || (n =? 95))%nat.

Fixpoint allChars (P : ascii -> bool) (s : string) : bool :=
  match s with
  | EmptyString => true
  | String c rest => P c && allChars P rest
  end.

Definition startsWithUnderscore (s : string) : bool :=
  match s with
  | String c _ => bool_decide (c = "_"%char)
  | EmptyString => false
  end.

Fixpoint noAdjacentUnderscores (s : string) : bool :=
  match s with
  | EmptyString => true
  | String c rest =>
      negb (bool_decide (c = "_"%char) && startsWithUnderscore rest)
      && noAdjacentUnderscores rest
  end.

(** *** [waitFor] and [tryFor]

    Both poll an action every 20 milliseconds.  The action is a closure
    that reads the editor's state, so it can answer differently each time:
    [action k] is what its call number [k] (from 0) gives.  A result tells
    how many times the action was called and how the helper ended. *)

Inductive Completion :=
| Returns
| Throws (error : string).

(** The [while (timeRemaining > 0)] loop of [waitFor]; [calls] counts the
    calls made so far.  The result is the number of calls made and whether
    the loop was left by [return]. *)
Equations waitForLoop (action : nat -> bool) (calls : nat) (timeRemaining : Z)
    : nat * bool by wf (Z.to_nat timeRemaining) lt :=
  waitForLoop action calls timeRemaining with Z_lt_dec 0 timeRemaining := {
    | left _ =>
        if action calls then (S calls, true)
        else waitForLoop action (S calls) (timeRemaining - 20)
    | right _ => (calls, false)
  }.
Next Obligation. lia. Qed.

Definition timeoutMessage (message : option string) : string :=
  "Action didn't return true within specified timeout"
    +:+ match message with
        | Some (String c m) => " (" +:+ String c m +:+ ")"
        | _ => ""
        end.

(** [message], [milliseconds] and [throwOnFailure] are optional; the last
    two default to 2000 and true. *)
Definition waitFor (action : nat -> bool) (message : option string)
    (milliseconds : option Z) (throwOnFailure : option bool)
    : nat * Completion :=
  let milliseconds := default 2000 milliseconds in
  let throwOnFailure := default true throwOnFailure in
  let '(calls, returned) := waitForLoop action 0 milliseconds in
  if returned then (calls, Returns)
  else if throwOnFailure then (calls, Throws (timeoutMessage message))
  else (calls, Returns).

(** For [tryFor] the action succeeds ([None]) or throws ([Some error]). *)
Equations tryForLoop (action : nat -> option string) (calls : nat)
    (timeRemaining : Z) : nat * bool by wf (Z.to_nat timeRemaining) lt :=
  tryForLoop action calls timeRemaining with Z_lt_dec 0 timeRemaining := {
    | left _ =>
        match action calls with
        | None => (S calls, true)
        | Some _ => tryForLoop action (S calls) (timeRemaining - 20)
        end
    | right _ => (calls, false)
  }.
Next Obligation. lia. Qed.

(** After the loop the action is run once more, outside any [try]. *)
Definition tryFor (action : nat -> option string) (milliseconds : option Z)
    : nat * Completion :=
  let milliseconds := default 2000 milliseconds in
  let '(calls, returned) := tryForLoop action 0 milliseconds in
  if returned then (calls, Returns)
  else match action calls with
       | None => (S calls, Returns)
       | Some error => (S calls, Throws error)
       end.

(** The number of 20 ms periods a timeout has started: the most calls
    the loop can make. *)
Definition startedPeriods (milliseconds : Z) : nat :=
  Z.to_nat ((milliseconds + 19) / 20).

(** *** [positionOf]

    The search text marks a place with a caret; the helper finds the text
    without the caret in the active document and returns the position of
    the marked place.  [documentText] is [doc.getText()], [documentEol]
    the module variable of that name; the result is the offset handed to
    [doc.positionAt]. *)

Inductive Asserted (A : Type) :=
| Passes (result : A)
| AssertionError (message : string).

Arguments Passes {A} result.
Arguments AssertionError {A} message.

(** [s.indexOf(searchString)]: the first place, or -1. *)
Definition indexOf (s searchString : string) : Z :=
  match String.index 0 searchString s with
  | Some i => Z.of_nat i
  | None => -1
  end.

(** [s.replace(c, "")] for a one-character string [c]: the first
    occurrence is taken out. *)
Fixpoint removeFirst (c : ascii) (s : string) : string :=
  match s with
  | EmptyString => EmptyString
  | String a rest =>
      if bool_decide (a = c) then rest else String a (removeFirst c rest)
  end.

(** [s.replace(/c/g, replacement)] for a one-character pattern. *)
Fixpoint replaceAll (c : ascii) (replacement s : string) : string :=
  match s with
  | EmptyString => EmptyString
  | String a rest =>
      if bool_decide (a = c) then replacement +:+ replaceAll c replacement rest
      else String a (replaceAll c replacement rest)
  end.

Definition caret : ascii := "^"%char.
Definition newline : ascii := "010"%char.

Definition positionOf (documentText documentEol searchText : string)
    : Asserted Z :=
  let caretOffset := indexOf searchText (String caret "") in
  if caretOffset =? -1 then
    AssertionError
      ("Couldn't find a ^ in search text (" +:+ searchText +:+ ")")
  else
    let matchedTextIndex :=
      indexOf documentText
        (replaceAll newline documentEol (removeFirst caret searchText)) in
    if matchedTextIndex =? -1 then
      AssertionError
        ("Couldn't find string " +:+ removeFirst caret searchText
           +:+ " in the document to get position of")
    else Passes (matchedTextIndex + caretOffset).

(** *** [rangeOf]

    The search text marks a stretch with two bars.  [inside], when given,
    is the pair of offsets [doc.offsetAt] gives for the start and the end
    of the range to search in; the result is the pair of offsets handed to
    [doc.positionAt] for the start and the end of the range returned. *)

(** [s.indexOf(searchString, position)]. *)
Definition indexOfFrom (s searchString : string) (position : Z) : Z :=
  match String.index (Z.to_nat position) searchString s with
  | Some i => Z.of_nat i
  | None => -1
  end.

(** [s.lastIndexOf(searchString)]: the last place, or -1.  [i] is the
    place [s] starts at and [last] the last match before it. *)
Fixpoint lastIndexFrom (searchString s : string) (i : nat) (last : Z) : Z :=
  let last' := if String.prefix searchString s then Z.of_nat i else last in
  match s with
  | EmptyString => last'
  | String _ rest => lastIndexFrom searchString rest (S i) last'
  end.

Definition lastIndexOf (s searchString : string) : Z :=
  lastIndexFrom searchString s 0 (-1).

Definition bar : ascii := "|"%char.

Definition rangeOf (documentText documentEol searchText : string)
    (inside : option (Z * Z)) : Asserted (Z * Z) :=
  let startOffset := indexOf searchText (String bar "") in
  if startOffset =? -1 then
    AssertionError
      ("Couldn't find a | in search text (" +:+ searchText +:+ ")")
  else
    let endOffset := lastIndexOf searchText (String bar "") in
    if endOffset =? -1 then
      AssertionError
        ("Couldn't find a second | in search text (" +:+ searchText +:+ ")")
    else
      let startSearchAt := match inside with Some (s, _) => s | None => 0 end in
      let endSearchAt := match inside with Some (_, e) => e | None => -1 end in
      let matchedTextIndex :=
        indexOfFrom documentText
          (replaceAll newline documentEol (replaceAll bar "" searchText))
          startSearchAt in
      let matchedTextIndex :=
        if (-1 <? endSearchAt) && (endSearchAt <? matchedTextIndex) then -1
        else matchedTextIndex in
      if matchedTextIndex =? -1 then
        AssertionError
          ("Couldn't find string " +:+ replaceAll bar "" searchText
             +:+ " in the document to get range of")
      else
        Passes (matchedTextIndex + startOffset,
                matchedTextIndex + endOffset - 1).

(** How often a character occurs. *)
Fixpoint occurrences (c : ascii) (s : string) : nat :=
  match s with
  | EmptyString => 0%nat
  | String a rest =>
      ((if bool_decide (a = c) then 1 else 0) + occurrences c rest)%nat
  end.

(** *** [ensureSymbol], [ensureCompletion] and [ensureNoCompletion]

    The editor's records, as far as these helpers read them. *)

Record Position := { line : Z; character : Z }.

Record Range := { start : Position; end_ : Position }.

Record Location := { uri : vs.Uri; range : option Range }.

Record SymbolInformation := {
  name : string;
  kind : Z;
  containerName : option string;
  location : Location;
}.

(** How a check ends: normally, or at the assertion that failed (numbered
    in the order they stand in the function). *)
Inductive Checked :=
| Holds
| Fails (assertion : nat).

Definition symbolMatches (name : string) (kind : Z)
    (containerName : option string) (f : SymbolInformation) : bool :=
  bool_decide (helpers.name f = name)
  && (helpers.kind f =? kind)
  && bool_decide (default "" (helpers.containerName f)
                  = default "" containerName).

(** [uri] defaults to the active document's ([docUri]) and
    [shouldHaveRange] to true.  A line number passes [assert.ok] when it
    is not 0. *)
Definition ensureSymbol (fsPath : vs.Uri -> string) (docUri : vs.Uri)
    (symbols : list SymbolInformation) (name : string) (kind : Z)
    (containerName : option string) (uri : option vs.Uri)
    (shouldHaveRange : option bool) : Checked :=
  let uri := default docUri uri in
  let shouldHaveRange := default true shouldHaveRange in
  match List.find (symbolMatches name kind containerName) symbols with
  | None => Fails 1
  | Some symbol =>
      if negb (bool_decide (fsPath (helpers.uri (location symbol)) = fsPath uri))
      then Fails 2
      else if shouldHaveRange then
        match range (location symbol) with
        | None => Fails 4
        | Some r =>
            if line (start r) =? 0 then Fails 6
            else if line (end_ r) =? 0 then Fails 8
            else Holds
        end
      else
        match range (location symbol) with
        | None => Holds
        | Some _ => Fails 9
        end
  end.

Record CompletionItem := {
  label : string;
  filterText : option string;
  itemKind : option Z;
  documentation : option string;
}.

(** [documentation] of an item is the [value] of its markdown text.  A
    check that reads it from an item without one ends in a type error,
    which is not an assertion: number 0. *)
Definition ensureCompletion (trim : string -> string)
    (items : list CompletionItem) (kind : Z) (label : string)
    (filterText documentation : option string) : Checked :=
  match List.find
          (fun item =>
             bool_decide (helpers.label item = label)
             && bool_decide (helpers.filterText item = filterText)
             && bool_decide (itemKind item = Some kind)) items with
  | None => Fails 1
  | Some completion =>
      match documentation with
      | Some (String c d) =>
          match helpers.documentation completion with
          | None => Fails 0
          | Some value =>
              if bool_decide (trim value = String c d) then Holds else Fails 2
          end
      | _ => Holds
      end
  end.

Definition ensureNoCompletion (items : list CompletionItem) (kind : Z)
    (label : string) : Checked :=
  match List.find
          (fun item =>
             (bool_decide (helpers.label item = label)
              || bool_decide (helpers.filterText item = Some label))
             && bool_decide (itemKind item = Some kind)) items with
  | None => Holds
  | Some _ => Fails 1
  end.

End helpers.

(** ** The server's overlays

    What the analysis server keeps for [analysis.updateContent]: for each
    file path at most one overlay, the content that stands in for the file
    on disk.  An add overlay sets it, a change overlay rewrites the one
    that is there, a remove overlay drops it. *)

Module Overlays.

Definition applyOverlay (applyBatch : list Replacement -> string -> string)
    (filePath : string) (o : AS.ContentOverlay) (store : gmap string string)
    : gmap string string :=
  match o with
  | AS.AddContentOverlay content => <[ filePath := content ]> store
  | AS.ChangeContentOverlay edits =>
      alter (applyBatch (map editReplacement edits)) filePath store
  | AS.RemoveContentOverlay => delete filePath store
  end.

Definition applyRequest (applyBatch : list Replacement -> string -> string)
    (store : gmap string string) (r : AS.AnalysisUpdateContentRequest)
    : gmap string string :=
  map_fold (applyOverlay applyBatch) store (AS.files r).

Definition applyRequests (applyBatch : list Replacement -> string -> string)
    (store : gmap string string)
    (requests : list AS.AnalysisUpdateContentRequest) : gmap string string :=
  fold_left (applyRequest applyBatch) requests store.

End Overlays.

(** A document's life in the editor: it is opened, the editor applies the
    batches to it, firing a change event for each, and it is closed as it
    is then. *)
Definition openAndEdit (applyBatch : list Replacement -> string -> string)
    (env : Env) (td : vs.TextDocument)
    (batches : list (list vs.TextDocumentContentChangeEvent))
    : list (Env * Event) :=
  (env, DidOpenTextDocument td)
    :: map (fun e => (env, DidChangeTextDocument e))
           (Editor.fire applyBatch td batches).1.

Definition closeAfterEdit (applyBatch : list Replacement -> string -> string)
    (env : Env) (td : vs.TextDocument)
    (batches : list (list vs.TextDocumentContentChangeEvent))
    : Env * Event :=
  (env, DidCloseTextDocument (Editor.fire applyBatch td batches).2).

(** ** Deferred clean-up of the tests ([defer], [deferUntilLast] and the
    [afterEach] hook that runs them) *)

Module deferred.

(** A value a callback can throw.  The hook only looks at whether it is
    truthy. *)
Inductive Thrown :=
| undefined
| number (n : Z)
| text (s : string)
| error (message : string).

Definition truthy (v : Thrown) : bool :=
  match v with
  | undefined => false
  | number n => negb (n =? 0)
  | text s => negb (bool_decide (s = ""))
  | error _ => true
  end.

Inductive TestState := failed | passed.

(** A registered callback: [call] is what calling it with the test's
    state does, [None] when it completes and [Some e] when it throws [e].
    [source] is its [toString()]. *)
Record Callback := {
  source : string;
  call : option TestState -> option Thrown;
}.

(** The two module-level arrays. *)
Record Registry := {
  deferredItems : list Callback;
  deferredToLastItems : list Callback;
}.

Definition defer (callback : Callback) (registry : Registry) : Registry :=
  {| deferredItems := deferredItems registry ++ [callback];
     deferredToLastItems := deferredToLastItems registry |}.

Definition deferUntilLast (callback : Callback) (registry : Registry)
    : Registry :=
  {| deferredItems := deferredItems registry;
     deferredToLastItems := deferredToLastItems registry ++ [callback] |}.

(** What the hook does that can be seen from outside. *)
Inductive Step :=
| called (d : Callback)
| logError (e : Thrown)
| logWarn (source : string).

(** The [for ... of] loop: [firstError] is the variable of that name. *)
Fixpoint runDeferred (state : option TestState) (items : list Callback)
    (firstError : Thrown) : list Step * Thrown :=
  match items with
  | [] => ([], firstError)
  | d :: rest =>
      match call d state with
      | None =>
          let '(steps, final) := runDeferred state rest firstError in
          (called d :: steps, final)
      | Some e =>
          let firstError' := if truthy firstError then firstError else e in
          let '(steps, final) := runDeferred state rest firstError' in
          (called d :: logError e :: logWarn (source d) :: steps, final)
      end
  end.

(** The hook: the registry it leaves, what it did, and the value it
    throws at the end, if any. *)
Definition afterEach (state : option TestState) (registry : Registry)
    : Registry * list Step * option Thrown :=
  let '(steps, firstError) :=
    runDeferred state
      (deferredItems registry ++ deferredToLastItems registry) undefined in
  ({| deferredItems := []; deferredToLastItems := [] |},
   steps,
   if truthy firstError then Some firstError else None).

(** The callbacks called, in order. *)
Fixpoint calledOf (steps : list Step) : list Callback :=
  match steps with
  | [] => []
  | called d :: rest => d :: calledOf rest
  | _ :: rest => calledOf rest
  end.

(** The first truthy value among those thrown. *)
Fixpoint firstTruthy (state : option TestState) (items : list Callback)
    : option Thrown :=
  match items with
  | [] => None
  | d :: rest =>
      match call d state with
      | Some e => if truthy e then Some e else firstTruthy state rest
      | None => firstTruthy state rest
      end
  end.

(** Registrations made while a test runs, in the order they are made. *)
Inductive Registration :=
| Defer (callback : Callback)
| DeferUntilLast (callback : Callback).

Definition register (registry : Registry) (r : Registration) : Registry :=
  match r with
  | Defer callback => defer callback registry
  | DeferUntilLast callback => deferUntilLast callback registry
  end.

Definition deferredOf (rs : list Registration) : list Callback :=
  omap (fun r => match r with Defer d => Some d | _ => None end) rs.

Definition deferredUntilLastOf (rs : list Registration) : list Callback :=
  omap (fun r => match r with DeferUntilLast d => Some d | _ => None end) rs.

End deferred.

(** ** Basic facts about runs and traces *)

Lemma overlaysOf_app (out out' : list Effect) :
  overlaysOf (out ++ out') = overlaysOf out ++ overlaysOf out'.
Proof.
  induction out as [|[m|r] out IH]; simpl; [done | done | by rewrite IH].
Qed.

Lemma warningsFor_app (p : string) (out out' : list Effect) :
  warningsFor p (out ++ out') = (warningsFor p out + warningsFor p out')%nat.
Proof.
  induction out as [|[m|r] out IH]; simpl; [done | rewrite IH; lia | done].
Qed.

Lemma run_cons (this : t) (env : Env) (ev : Event) (rest : list (Env * Event)) :
  run this ((env, ev) :: rest) =
    ((run (handle env this ev).1 rest).1,
     (handle env this ev).2 ++ (run (handle env this ev).1 rest).2).
Proof.
  simpl. destruct (handle env this ev) as [this' out].
  simpl. by destruct (run this' rest).
Qed.

Lemma run_app (this : t) (evs evs' : list (Env * Event)) :
  run this (evs ++ evs') =
    ((run (run this evs).1 evs').1,
     (run this evs).2 ++ (run (run this evs).1 evs').2).
Proof.
  revert this. induction evs as [|[env ev] evs IH]; intros this.
  - simpl. by destruct (run this evs').
  - rewrite <- app_comm_cons, !run_cons, IH. simpl. by rewrite app_assoc.
Qed.

Lemma session_eq (env : Env) (docs : list vs.TextDocument)
    (events : list (Env * Event)) :
  session env docs events =
    run {| filesWarnedAbout := ∅ |}
        (map (fun td => (env, DidOpenTextDocument td)) docs ++ events).
Proof.
  unfold session, constructor. rewrite run_app.
  destruct (run _ (map _ docs)) as [this out]. simpl.
  by destruct (run this events).
Qed.

Lemma session_snoc (env0 : Env) (docs : list vs.TextDocument)
    (history : list (Env * Event)) (env : Env) (ev : Event) :
  session env0 docs (history ++ [(env, ev)]) =
    ((handle env (session env0 docs history).1 ev).1,
     (session env0 docs history).2
       ++ (handle env (session env0 docs history).1 ev).2).
Proof.
  rewrite !session_eq, app_assoc, run_app. f_equal.
  - rewrite run_cons. done.
  - rewrite run_cons. simpl. by rewrite app_nil_r.
Qed.

(** What each method sends, case by case. *)

Lemma onDidOpenTextDocument_analyzable (env : Env) (this : t)
    (document : vs.TextDocument) :
  isAnalyzable env document = true ->
  onDidOpenTextDocument env this document =
    (this, [analysisUpdateContent
              {| AS.files := {[ fsPath env (vs.uri document) :=
                                  AS.AddContentOverlay (vs.getText document) ]} |}]).
Proof.
  intros Ha. unfold onDidOpenTextDocument. rewrite Ha. simpl.
  by rewrite insert_empty.
Qed.

Lemma onDidCloseTextDocument_analyzable (env : Env) (this : t)
    (document : vs.TextDocument) :
  isAnalyzable env document = true ->
  onDidCloseTextDocument env this document =
    (this, [analysisUpdateContent
              {| AS.files := {[ fsPath env (vs.uri document) :=
                                  AS.RemoveContentOverlay ]} |}]).
Proof.
  intros Ha. unfold onDidCloseTextDocument. rewrite Ha. simpl.
  by rewrite insert_empty.
Qed.

Lemma onDidChangeTextDocument_overlays (env : Env) (this : t)
    (e : vs.TextDocumentChangeEvent) :
  isAnalyzable env (vs.document e) = true ->
  vs.contentChanges e <> [] ->
  overlaysOf (onDidChangeTextDocument env this e).2 =
    [ {| AS.files := {[ fsPath env (vs.uri (vs.document e)) :=
                          AS.ChangeContentOverlay
                            (map (convertChange (vs.document e))
                                 (vs.contentChanges e)) ]} |} ].
Proof.
  intros Ha Hne. unfold onDidChangeTextDocument. rewrite Ha. simpl.
  destruct (vs.contentChanges e) as [|c cs] eqn:Hcs; [done|]. simpl.
  rewrite insert_empty.
  by destruct (_ && _ && _).
Qed.

Lemma onDidChangeTextDocument_empty (env : Env) (this : t)
    (e : vs.TextDocumentChangeEvent) :
  vs.contentChanges e = [] ->
  onDidChangeTextDocument env this e = (this, []).
Proof.
  intros He. unfold onDidChangeTextDocument. rewrite He. simpl.
  by destruct (negb _).
Qed.

Lemma handle_not_analyzable (env : Env) (this : t) (ev : Event) :
  isAnalyzable env (eventDocument ev) = false ->
  handle env this ev = (this, []).
Proof.
  intros Ha. destruct ev as [td|e|td]; simpl in *;
    unfold onDidOpenTextDocument, onDidChangeTextDocument,
      onDidCloseTextDocument; by rewrite Ha.
Qed.

Lemma outsideWorkspaceWarning_inj (p q : string) :
  outsideWorkspaceWarning p = outsideWorkspaceWarning q -> p = q.
Proof.
  unfold outsideWorkspaceWarning.
  generalize "You are modifying a file outside of your current workspace: ".
  intros s. induction s as [|c s IH]; simpl; [done|].
  intros H. injection H as H. by apply IH.
Qed.

(** One event at a time: the set only grows, a path already in it is not
    warned about, and a warning shown puts its path into the set. *)

Lemma handle_filesWarnedAbout_mono (env : Env) (this : t) (ev : Event) :
  filesWarnedAbout this ⊆ filesWarnedAbout (handle env this ev).1.
Proof.
  destruct ev as [td|e|td]; simpl;
    unfold onDidOpenTextDocument, onDidChangeTextDocument,
      onDidCloseTextDocument.
  - by destruct (negb _).
  - destruct (negb _); [done|]. destruct (_ =? _)%nat; [done|].
    destruct (_ && _ && _); simpl; set_solver.
  - by destruct (negb _).
Qed.

Lemma handle_warned_silent (env : Env) (this : t) (ev : Event) (p : string) :
  p ∈ filesWarnedAbout this ->
  warningsFor p (handle env this ev).2 = 0%nat.
Proof.
  intros Hin. destruct ev as [td|e|td]; cbn [handle];
    unfold onDidOpenTextDocument, onDidChangeTextDocument,
      onDidCloseTextDocument.
  - by destruct (negb _).
  - destruct (negb _); [done|]. destruct (_ =? _)%nat; [done|].
    set (q := fsPath env (vs.uri (vs.document e))).
    destruct (_ && _ && _) eqn:Hw; cbn [snd app warningsFor]; [|done].
    apply andb_true_iff in Hw as [Hw _].
    apply andb_true_iff in Hw as [_ Hw].
    apply negb_true_iff, bool_decide_eq_false in Hw.
    rewrite bool_decide_eq_false_2; [done|].
    intros H. apply outsideWorkspaceWarning_inj in H. congruence.
  - by destruct (negb _).
Qed.

Lemma handle_warning_bound (env : Env) (this : t) (ev : Event) (p : string) :
  (warningsFor p (handle env this ev).2 <= 1)%nat
  /\ (warningsFor p (handle env this ev).2 = 1%nat ->
      p ∈ filesWarnedAbout (handle env this ev).1).
Proof.
  destruct ev as [td|e|td]; cbn [handle];
    unfold onDidOpenTextDocument, onDidChangeTextDocument,
      onDidCloseTextDocument.
  - destruct (negb _); cbn [fst snd warningsFor]; split; (lia || done).
  - destruct (negb _); [cbn [fst snd warningsFor]; split; (lia || done)|].
    destruct (_ =? _)%nat; [cbn [fst snd warningsFor]; split; (lia || done)|].
    set (q := fsPath env (vs.uri (vs.document e))).
    destruct (_ && _ && _); cbn [fst snd app warningsFor filesWarnedAbout];
      [|split; (lia || done)].
    case_bool_decide as Hq; split; try lia; try done.
    intros _. apply outsideWorkspaceWarning_inj in Hq. set_solver.
  - destruct (negb _); cbn [fst snd warningsFor]; split; (lia || done).
Qed.

Lemma run_filesWarnedAbout_mono (this : t) (events : list (Env * Event)) :
  filesWarnedAbout this ⊆ filesWarnedAbout (run this events).1.
Proof.
  revert this. induction events as [|[env ev] events IH]; intros this.
  - done.
  - rewrite run_cons. simpl.
    etrans; [apply (handle_filesWarnedAbout_mono env this ev) | apply IH].
Qed.

Lemma run_warned_silent (this : t) (events : list (Env * Event)) (p : string) :
  p ∈ filesWarnedAbout this ->
  warningsFor p (run this events).2 = 0%nat.
Proof.
  revert this. induction events as [|[env ev] events IH]; intros this Hin.
  - done.
  - rewrite run_cons. simpl. rewrite warningsFor_app.
    rewrite handle_warned_silent by done.
    rewrite IH; [done|].
    by apply (handle_filesWarnedAbout_mono env this ev).
Qed.

Lemma run_warning_bound (this : t) (events : list (Env * Event)) (p : string) :
  (warningsFor p (run this events).2 <= 1)%nat
  /\ (warningsFor p (run this events).2 = 1%nat ->
      p ∈ filesWarnedAbout (run this events).1).
Proof.
  revert this. induction events as [|[env ev] events IH]; intros this.
  - simpl. split; [lia | done].
  - rewrite run_cons. simpl. rewrite warningsFor_app.
    destruct (handle_warning_bound env this ev p) as [Hle Hin].
    destruct (IH (handle env this ev).1) as [Hle' Hin'].
    destruct (decide (warningsFor p (handle env this ev).2 = 1%nat)) as [H1|H1].
    + specialize (Hin H1).
      rewrite (run_warned_silent _ events p Hin). split; [lia|].
      intros _. by apply run_filesWarnedAbout_mono.
    + assert (warningsFor p (handle env this ev).2 = 0%nat) as -> by lia.
      simpl. split; [lia | done].
Qed.

(** Every request sent while handling one event has a [files] map with the
    event's document as its only key. *)
Lemma handle_overlays_single (env : Env) (this : t) (ev : Event) :
  Forall (fun r => exists o,
            AS.files r = {[ fsPath env (vs.uri (eventDocument ev)) := o ]})
         (overlaysOf (handle env this ev).2).
Proof.
  destruct ev as [td|e|td]; simpl;
    unfold onDidOpenTextDocument, onDidChangeTextDocument,
      onDidCloseTextDocument.
  - destruct (negb _); simpl; [done|].
    rewrite insert_empty. repeat constructor. by eexists.
  - destruct (negb _); [done|]. destruct (_ =? _)%nat; [done|].
    rewrite insert_empty.
    destruct (_ && _ && _); simpl; repeat constructor; by eexists.
  - destruct (negb _); simpl; [done|].
    rewrite insert_empty. repeat constructor. by eexists.
Qed.

Lemma run_overlays_single (this : t) (events : list (Env * Event)) :
  Forall (fun r => exists env ev o,
            (env, ev) ∈ events
            /\ AS.files r = {[ fsPath env (vs.uri (eventDocument ev)) := o ]})
         (overlaysOf (run this events).2).
Proof.
  revert this. induction events as [|[env ev] events IH]; intros this.
  - done.
  - rewrite run_cons. simpl. rewrite overlaysOf_app. apply Forall_app. split.
    + eapply Forall_impl; [apply handle_overlays_single|].
      intros r [o Hr]. exists env, ev, o. split; [left | done].
    + eapply Forall_impl; [apply IH|].
      intros r (env' & ev' & o & Hin & Hr). exists env', ev', o.
      split; [by right | done].
Qed.

(** * The claims *)

(** ** C1: open, change, close *)

(** C1: for an analyzable document D, the requests sent for
    open(D, "a"); change(D, [{offset 0, length 1, replacement "ab"}]);
    close(D) are, in this order, an add overlay with content "a", a change
    overlay with the single edit {offset 0, length 1, replacement "ab"}
    and a remove overlay, all filed under D's path; the add is what
    [onDidOpenTextDocument] sends (with the document's full text) and the
    remove is what [onDidCloseTextDocument] sends. *)
Theorem C1_open_change_close_sequence
    (env : Env) (this : t) (u : vs.Uri) (lang : string) :
  isAnalyzable env (scenarioDoc u lang "a") = true ->
  isAnalyzable env (scenarioDoc u lang "ab") = true ->
  overlaysOf (run this (scenario env u lang)).2 =
    [ {| AS.files := {[ fsPath env u := AS.AddContentOverlay "a" ]} |};
      {| AS.files :=
           {[ fsPath env u :=
                AS.ChangeContentOverlay
                  [ {| AS.id := ""; AS.length := 1; AS.offset := 0;
                       AS.replacement := "ab" |} ] ]} |};
      {| AS.files := {[ fsPath env u := AS.RemoveContentOverlay ]} |} ]
  /\ (onDidOpenTextDocument env this (scenarioDoc u lang "a")).2 =
       [ analysisUpdateContent
           {| AS.files :=
                {[ fsPath env u :=
                     AS.AddContentOverlay
                       (vs.getText (scenarioDoc u lang "a")) ]} |} ]
  /\ (onDidCloseTextDocument env this (scenarioDoc u lang "ab")).2 =
       [ analysisUpdateContent
           {| AS.files := {[ fsPath env u := AS.RemoveContentOverlay ]} |} ].
Proof.
  intros Ha Hab. split; [|split].
  - unfold scenario. rewrite !run_cons. cbn [handle run fst snd].
    rewrite !overlaysOf_app, app_nil_r.
    rewrite onDidOpenTextDocument_analyzable by done. cbn [fst snd].
    rewrite onDidCloseTextDocument_analyzable by done. cbn [fst snd].
    rewrite onDidChangeTextDocument_overlays by done.
    reflexivity.
  - by rewrite onDidOpenTextDocument_analyzable.
  - by rewrite onDidCloseTextDocument_analyzable.
Qed.

Lemma C1_open_change_close_sequence_witness :
  isAnalyzable sampleEnv
    (scenarioDoc {| vs.scheme := "file"; vs.path := "/ws/main.dart" |} "dart" "a")
    = true
  /\ overlayTypes
       (run {| filesWarnedAbout := ∅ |}
            (scenario sampleEnv
               {| vs.scheme := "file"; vs.path := "/ws/main.dart" |} "dart")).2
     = ["add"; "change"; "remove"]
  /\ overlaysOf
       (run {| filesWarnedAbout := ∅ |}
            (scenario sampleEnv
               {| vs.scheme := "file"; vs.path := "/ws/main.dart" |} "dart")).2
     = [ {| AS.files := {[ "/ws/main.dart" := AS.AddContentOverlay "a" ]} |};
         {| AS.files :=
              {[ "/ws/main.dart" :=
                   AS.ChangeContentOverlay
                     [ {| AS.id := ""; AS.length := 1; AS.offset := 0;
                          AS.replacement := "ab" |} ] ]} |};
         {| AS.files := {[ "/ws/main.dart" := AS.RemoveContentOverlay ]} |} ].
Proof.
  split; [reflexivity|]. split; [vm_compute; reflexivity|].
  apply (C1_open_change_close_sequence sampleEnv {| filesWarnedAbout := ∅ |}
           {| vs.scheme := "file"; vs.path := "/ws/main.dart" |} "dart");
    reflexivity.
Defined.

(** ** C3: one source edit per change record *)

(** C3: for a change event with at least one change record on an
    analyzable document, exactly one request is sent; it holds a change
    overlay filed under the document's path whose edits are as many as the
    change records and, position by position, have the record's
    [rangeOffset], [rangeLength] and [text] as [offset], [length] and
    [replacement]. *)
Theorem C3_edits_mirror_change_records
    (env : Env) (this : t) (e : vs.TextDocumentChangeEvent) :
  isAnalyzable env (vs.document e) = true ->
  vs.contentChanges e <> [] ->
  exists edits : list AS.SourceEdit,
    overlaysOf (onDidChangeTextDocument env this e).2 =
      [ {| AS.files := {[ fsPath env (vs.uri (vs.document e)) :=
                            AS.ChangeContentOverlay edits ]} |} ]
    /\ List.length edits = List.length (vs.contentChanges e)
    /\ forall (i : nat) (c : vs.TextDocumentContentChangeEvent),
         vs.contentChanges e !! i = Some c ->
         exists ed : AS.SourceEdit,
           edits !! i = Some ed
           /\ AS.offset ed = vs.rangeOffset c
           /\ AS.length ed = vs.rangeLength c
           /\ AS.replacement ed = vs.text c.
Proof.
  intros Ha Hne.
  exists (map (convertChange (vs.document e)) (vs.contentChanges e)).
  split; [by apply onDidChangeTextDocument_overlays|].
  split; [by rewrite length_map|].
  intros i c Hc. exists (convertChange (vs.document e) c).
  split; [|done].
  change (map (convertChange (vs.document e)) (vs.contentChanges e))
    with (convertChange (vs.document e) <$> vs.contentChanges e).
  by rewrite list_lookup_fmap, Hc.
Qed.

Lemma C3_edits_mirror_change_records_witness :
  exists edits : list AS.SourceEdit,
    overlaysOf
      (onDidChangeTextDocument sampleEnv {| filesWarnedAbout := ∅ |}
         {| vs.document := sampleDoc "/tmp/x.dart" "abc";
            vs.contentChanges :=
              [ sampleChange;
                {| vs.rangeOffset := 2; vs.rangeLength := 0; vs.text := "c" |} ] |}).2
    = [ {| AS.files := {[ "/tmp/x.dart" := AS.ChangeContentOverlay edits ]} |} ]
    /\ List.length edits = 2%nat.
Proof.
  destruct (C3_edits_mirror_change_records sampleEnv {| filesWarnedAbout := ∅ |}
              {| vs.document := sampleDoc "/tmp/x.dart" "abc";
                 vs.contentChanges :=
                   [ sampleChange;
                     {| vs.rangeOffset := 2; vs.rangeLength := 0;
                        vs.text := "c" |} ] |})
    as (edits & Hsent & Hlen & _); [reflexivity | discriminate |].
  exists edits. split; [exact Hsent | exact Hlen].
Defined.

(** ** C6: an empty batch of changes *)

(** C6: a change event whose list of content changes is empty sends no
    request to the analyzer, whatever the document: the method returns
    with no effect at all and the handler is unchanged. *)
Theorem C6_empty_change_sends_nothing
    (env : Env) (this : t) (e : vs.TextDocumentChangeEvent) :
  vs.contentChanges e = [] ->
  onDidChangeTextDocument env this e = (this, [])
  /\ overlaysOf (onDidChangeTextDocument env this e).2 = [].
Proof.
  intros He. rewrite onDidChangeTextDocument_empty by done. done.
Qed.

Lemma C6_empty_change_sends_nothing_witness :
  onDidChangeTextDocument sampleEnv {| filesWarnedAbout := ∅ |}
    {| vs.document := sampleDoc "/tmp/x.dart" "abc"; vs.contentChanges := [] |}
  = ({| filesWarnedAbout := ∅ |}, []).
Proof.
  apply (C6_empty_change_sends_nothing sampleEnv {| filesWarnedAbout := ∅ |}
           {| vs.document := sampleDoc "/tmp/x.dart" "abc";
              vs.contentChanges := [] |}).
  reflexivity.
Defined.

(** ** C7: documents that are not analyzable *)

(** C7: an open, change or close event on a document that is not
    analyzable has no effect: no request is sent, no warning is shown, the
    handler is unchanged, and the method returns normally. *)
Theorem C7_not_analyzable_ignored (env : Env) (this : t) (ev : Event) :
  isAnalyzable env (eventDocument ev) = false ->
  handle env this ev = (this, [])
  /\ overlaysOf (handle env this ev).2 = [].
Proof.
  intros Ha. by rewrite handle_not_analyzable.
Qed.

Lemma C7_not_analyzable_ignored_witness :
  handle sampleEnv {| filesWarnedAbout := ∅ |}
    (DidChangeTextDocument
       {| vs.document :=
            {| vs.uri := {| vs.scheme := "file"; vs.path := "/tmp/notes.txt" |};
               vs.languageId := "plaintext";
               vs.getText := "ab" |};
          vs.contentChanges := [sampleChange] |})
  = ({| filesWarnedAbout := ∅ |}, []).
Proof.
  apply (C7_not_analyzable_ignored sampleEnv {| filesWarnedAbout := ∅ |}
           (DidChangeTextDocument
              {| vs.document :=
                   {| vs.uri := {| vs.scheme := "file"; vs.path := "/tmp/notes.txt" |};
                      vs.languageId := "plaintext";
                      vs.getText := "ab" |};
                 vs.contentChanges := [sampleChange] |})).
  reflexivity.
Defined.

(** ** C10: one document per request *)

(** C10: every request the handler sends, for an open, a change or a close
    event (the opens made by the constructor included), has a [files] map
    with exactly one entry, filed under the path of the document of the
    event that was being handled. *)
Theorem C10_one_document_per_request
    (env0 : Env) (docs : list vs.TextDocument) (events : list (Env * Event))
    (env : Env) (this : t) (ev : Event) :
  Forall (fun r => size (AS.files r) = 1%nat
                   /\ dom (AS.files r)
                      = {[ fsPath env (vs.uri (eventDocument ev)) ]})
         (overlaysOf (handle env this ev).2)
  /\ Forall (fun r => size (AS.files r) = 1%nat
                      /\ exists env' ev',
                           (env', ev')
                             ∈ map (fun td => (env0, DidOpenTextDocument td)) docs
                               ++ events
                           /\ dom (AS.files r)
                              = {[ fsPath env' (vs.uri (eventDocument ev')) ]})
            (overlaysOf (session env0 docs events).2).
Proof.
  split.
  - eapply Forall_impl; [apply handle_overlays_single|].
    intros r [o ->]. split; [apply map_size_singleton | apply dom_singleton_L].
  - rewrite session_eq.
    eapply Forall_impl; [apply run_overlays_single|].
    intros r (env' & ev' & o & Hin & ->). split; [apply map_size_singleton|].
    exists env', ev'. split; [done | apply dom_singleton_L].
Qed.

(** ** C4: a change to a document that was never opened *)

(** C4 as stated fails: in a fresh session with no open documents, the
    first event is a change to an analyzable document; the only request
    sent is the change overlay, and no add overlay is sent at all. *)
Lemma C4_no_implicit_open_counterexample :
  isAnalyzable sampleEnv (sampleDoc "/ws/main.dart" "ab") = true
  /\ overlaysOf
       (session sampleEnv []
          [ (sampleEnv,
             DidChangeTextDocument
               {| vs.document := sampleDoc "/ws/main.dart" "ab";
                  vs.contentChanges := [sampleChange] |}) ]).2
     = [ {| AS.files :=
              {[ "/ws/main.dart" :=
                   AS.ChangeContentOverlay
                     [ {| AS.id := ""; AS.length := 1; AS.offset := 0;
                          AS.replacement := "ab" |} ] ]} |} ]
  /\ ~ (exists r content,
          r ∈ overlaysOf
                (session sampleEnv []
                   [ (sampleEnv,
                      DidChangeTextDocument
                        {| vs.document := sampleDoc "/ws/main.dart" "ab";
                           vs.contentChanges := [sampleChange] |}) ]).2
          /\ AS.files r !! "/ws/main.dart" = Some (AS.AddContentOverlay content)).
Proof.
  assert (overlaysOf
       (session sampleEnv []
          [ (sampleEnv,
             DidChangeTextDocument
               {| vs.document := sampleDoc "/ws/main.dart" "ab";
                  vs.contentChanges := [sampleChange] |}) ]).2
     = [ {| AS.files :=
              {[ "/ws/main.dart" :=
                   AS.ChangeContentOverlay
                     [ {| AS.id := ""; AS.length := 1; AS.offset := 0;
                          AS.replacement := "ab" |} ] ]} |} ]) as Hsent
    by (vm_compute; reflexivity).
  split; [reflexivity|]. split; [exact Hsent|].
  rewrite Hsent. intros (r & content & Hin & Hadd).
  apply list_elem_of_singleton in Hin. subst r. simpl in Hadd.
  rewrite lookup_singleton_eq in Hadd. discriminate.
Qed.

(** C4, amended: a change event with at least one change record on an
    analyzable document adds exactly one request to those sent so far, the
    change overlay for that document, whatever happened before in the
    session (whether or not the document was ever opened); no add overlay
    is sent for it. *)
Theorem C4_change_sends_only_the_change
    (env0 : Env) (docs : list vs.TextDocument) (history : list (Env * Event))
    (env : Env) (e : vs.TextDocumentChangeEvent) :
  isAnalyzable env (vs.document e) = true ->
  vs.contentChanges e <> [] ->
  overlaysOf (session env0 docs (history ++ [(env, DidChangeTextDocument e)])).2 =
    overlaysOf (session env0 docs history).2
      ++ [ {| AS.files :=
                {[ fsPath env (vs.uri (vs.document e)) :=
                     AS.ChangeContentOverlay
                       (map (convertChange (vs.document e))
                            (vs.contentChanges e)) ]} |} ].
Proof.
  intros Ha Hne. rewrite session_snoc. cbn [fst snd handle].
  rewrite overlaysOf_app. f_equal.
  by apply onDidChangeTextDocument_overlays.
Qed.

Lemma C4_change_sends_only_the_change_witness :
  overlaysOf
    (session sampleEnv []
       ([] ++ [ (sampleEnv,
                 DidChangeTextDocument
                   {| vs.document := sampleDoc "/ws/main.dart" "ab";
                      vs.contentChanges := [sampleChange] |}) ])).2
  = overlaysOf (session sampleEnv [] []).2
      ++ [ {| AS.files :=
                {[ "/ws/main.dart" :=
                     AS.ChangeContentOverlay
                       (map (convertChange (sampleDoc "/ws/main.dart" "ab"))
                            [sampleChange]) ]} |} ].
Proof.
  apply (C4_change_sends_only_the_change sampleEnv [] [] sampleEnv
           {| vs.document := sampleDoc "/ws/main.dart" "ab";
              vs.contentChanges := [sampleChange] |});
    [reflexivity | discriminate].
Defined.

(** ** C5: closing a document that was never opened *)

(** C5 as stated fails: in a fresh session with no open documents, the
    first event closes an analyzable document, and a remove overlay is
    sent for it. *)
Lemma C5_close_unopened_counterexample :
  isAnalyzable sampleEnv (sampleDoc "/ws/main.dart" "a") = true
  /\ (constructor sampleEnv []).2 = []
  /\ overlaysOf
       (session sampleEnv []
          [ (sampleEnv, DidCloseTextDocument (sampleDoc "/ws/main.dart" "a")) ]).2
     = [ {| AS.files := {[ "/ws/main.dart" := AS.RemoveContentOverlay ]} |} ]
  /\ overlaysOf
       (session sampleEnv []
          [ (sampleEnv, DidCloseTextDocument (sampleDoc "/ws/main.dart" "a")) ]).2
     <> [].
Proof.
  assert (overlaysOf
       (session sampleEnv []
          [ (sampleEnv, DidCloseTextDocument (sampleDoc "/ws/main.dart" "a")) ]).2
     = [ {| AS.files := {[ "/ws/main.dart" := AS.RemoveContentOverlay ]} |} ])
    as Hsent by (vm_compute; reflexivity).
  split; [reflexivity|]. split; [reflexivity|]. split; [exact Hsent|].
  rewrite Hsent. discriminate.
Qed.

(** C5, amended: a close event on an analyzable document adds exactly one
    request to those sent so far, the remove overlay for that document,
    whatever happened before in the session (whether or not the document
    was ever opened); the handler's own state is left as it was and the
    method returns normally. *)
Theorem C5_close_sends_remove
    (env0 : Env) (docs : list vs.TextDocument) (history : list (Env * Event))
    (env : Env) (document : vs.TextDocument) :
  isAnalyzable env document = true ->
  overlaysOf
    (session env0 docs (history ++ [(env, DidCloseTextDocument document)])).2 =
    overlaysOf (session env0 docs history).2
      ++ [ {| AS.files := {[ fsPath env (vs.uri document) :=
                               AS.RemoveContentOverlay ]} |} ]
  /\ (session env0 docs (history ++ [(env, DidCloseTextDocument document)])).1
     = (session env0 docs history).1.
Proof.
  intros Ha. rewrite session_snoc. cbn [fst snd handle].
  rewrite overlaysOf_app.
  by rewrite onDidCloseTextDocument_analyzable.
Qed.

Lemma C5_close_sends_remove_witness :
  overlaysOf
    (session sampleEnv []
       ([] ++ [ (sampleEnv,
                 DidCloseTextDocument (sampleDoc "/ws/main.dart" "a")) ])).2
  = overlaysOf (session sampleEnv [] []).2
      ++ [ {| AS.files := {[ "/ws/main.dart" := AS.RemoveContentOverlay ]} |} ].
Proof.
  apply (C5_close_sends_remove sampleEnv [] [] sampleEnv
           (sampleDoc "/ws/main.dart" "a")).
  reflexivity.
Defined.

(** ** C9: the warning is shown at most once per path *)

(** C9: in any session (any documents open at construction, any sequence
    of later events, any changes of settings and workspace in between),
    the warning about editing outside the workspace is shown at most once
    for a given file path; when it was shown, the path is in
    [filesWarnedAbout], and once a path is in that set no later event
    shows the warning for it again. *)
Theorem C9_warning_at_most_once_per_path
    (env0 : Env) (docs : list vs.TextDocument) (events : list (Env * Event))
    (filePath : string) :
  (warningsFor filePath (session env0 docs events).2 <= 1)%nat
  /\ (warningsFor filePath (session env0 docs events).2 = 1%nat ->
      filePath ∈ filesWarnedAbout (session env0 docs events).1)
  /\ (forall later : list (Env * Event),
        filePath ∈ filesWarnedAbout (session env0 docs events).1 ->
        warningsFor filePath (session env0 docs (events ++ later)).2
        = warningsFor filePath (session env0 docs events).2).
Proof.
  rewrite !session_eq. split; [|split].
  - apply run_warning_bound.
  - apply run_warning_bound.
  - intros later Hin. rewrite session_eq, app_assoc, run_app. cbn [snd].
    rewrite warningsFor_app, (run_warned_silent _ later) by done. lia.
Qed.

Lemma C9_warning_at_most_once_per_path_witness :
  warningsFor "/tmp/x.dart"
    (session sampleEnv []
       [ (sampleEnv,
          DidChangeTextDocument
            {| vs.document := sampleDoc "/tmp/x.dart" "ab";
               vs.contentChanges := [sampleChange] |});
         (sampleEnv,
          DidChangeTextDocument
            {| vs.document := sampleDoc "/tmp/x.dart" "abb";
               vs.contentChanges := [sampleChange] |}) ]).2 = 1%nat
  /\ "/tmp/x.dart"
       ∈ filesWarnedAbout
           (session sampleEnv []
              [ (sampleEnv,
                 DidChangeTextDocument
                   {| vs.document := sampleDoc "/tmp/x.dart" "ab";
                      vs.contentChanges := [sampleChange] |});
                (sampleEnv,
                 DidChangeTextDocument
                   {| vs.document := sampleDoc "/tmp/x.dart" "abb";
                      vs.contentChanges := [sampleChange] |}) ]).1.
Proof.
  assert (warningsFor "/tmp/x.dart"
    (session sampleEnv []
       [ (sampleEnv,
          DidChangeTextDocument
            {| vs.document := sampleDoc "/tmp/x.dart" "ab";
               vs.contentChanges := [sampleChange] |});
         (sampleEnv,
          DidChangeTextDocument
            {| vs.document := sampleDoc "/tmp/x.dart" "abb";
               vs.contentChanges := [sampleChange] |}) ]).2 = 1%nat) as Hone
    by (vm_compute; reflexivity).
  split; [exact Hone|].
  apply (C9_warning_at_most_once_per_path sampleEnv []
           [ (sampleEnv,
              DidChangeTextDocument
                {| vs.document := sampleDoc "/tmp/x.dart" "ab";
                   vs.contentChanges := [sampleChange] |});
             (sampleEnv,
              DidChangeTextDocument
                {| vs.document := sampleDoc "/tmp/x.dart" "abb";
                   vs.contentChanges := [sampleChange] |}) ]
           "/tmp/x.dart").
  exact Hone.
Defined.

(** ** C2: replaying the edits sent reproduces the editor's text *)

Lemma editReplacement_convertChange (td : vs.TextDocument)
    (changes : list vs.TextDocumentContentChangeEvent) :
  map editReplacement (map (convertChange td) changes)
  = map changeReplacement changes.
Proof.
  induction changes as [|c changes IH]; simpl; [done|]. by rewrite IH.
Qed.

Lemma fire_cons (applyBatch : list Replacement -> string -> string)
    (td : vs.TextDocument) (changes : list vs.TextDocumentContentChangeEvent)
    (rest : list (list vs.TextDocumentContentChangeEvent)) :
  Editor.fire applyBatch td (changes :: rest) =
    ({| vs.document := Editor.edit applyBatch td changes;
        vs.contentChanges := changes |}
       :: (Editor.fire applyBatch (Editor.edit applyBatch td changes) rest).1,
     (Editor.fire applyBatch (Editor.edit applyBatch td changes) rest).2).
Proof.
  simpl. by destruct (Editor.fire applyBatch _ rest).
Qed.

Lemma replay_app (applyBatch : list Replacement -> string -> string)
    (filePath content : string)
    (rs rs' : list AS.AnalysisUpdateContentRequest) :
  Server.replay applyBatch filePath content (rs ++ rs')
  = Server.replay applyBatch filePath
      (Server.replay applyBatch filePath content rs) rs'.
Proof. unfold Server.replay. apply fold_left_app. Qed.

Section RoundTrip.

Variable applyBatch : list Replacement -> string -> string.

(** A batch with no edit in it leaves the text as it is. *)
Hypothesis applyBatch_nil : forall content, applyBatch [] content = content.

Variable env : Env.

(** What the requests sent for one change event do to the server's copy:
    the same as the editor did to its own. *)
Lemma replay_one_change (this : t) (td : vs.TextDocument)
    (changes : list vs.TextDocumentContentChangeEvent) :
  isAnalyzable env (Editor.edit applyBatch td changes) = true ->
  Server.replay applyBatch (fsPath env (vs.uri td)) (vs.getText td)
    (overlaysOf
       (onDidChangeTextDocument env this
          {| vs.document := Editor.edit applyBatch td changes;
             vs.contentChanges := changes |}).2)
  = vs.getText (Editor.edit applyBatch td changes).
Proof.
  intros Ha. destruct changes as [|c changes].
  - rewrite onDidChangeTextDocument_empty by done. simpl.
    by rewrite applyBatch_nil.
  - rewrite onDidChangeTextDocument_overlays by done.
    cbn [Server.replay fold_left Server.replayRequest AS.files
         vs.document vs.contentChanges Editor.edit vs.uri vs.getText].
    unfold Server.replayRequest. cbn [AS.files].
    rewrite lookup_singleton_eq.
    by rewrite editReplacement_convertChange.
Qed.

(** C2: let the editor apply any sequence of change batches to an
    analyzable document and fire one change event per batch.  Replaying
    the change overlays the handler sent, in the order sent and each
    batch on the text the batches before it left, starting from the text
    the document had before the first batch, gives the text the document
    has after the last batch. *)
Theorem C2_replay_reproduces_text (this : t) (td : vs.TextDocument)
    (batches : list (list vs.TextDocumentContentChangeEvent)) :
  Forall (fun e => isAnalyzable env (vs.document e) = true)
         (Editor.fire applyBatch td batches).1 ->
  Server.replay applyBatch (fsPath env (vs.uri td)) (vs.getText td)
    (overlaysOf
       (run this
          (map (fun e => (env, DidChangeTextDocument e))
               (Editor.fire applyBatch td batches).1)).2)
  = vs.getText (Editor.fire applyBatch td batches).2.
Proof.
  revert this td.
  induction batches as [|changes batches IH]; intros this td Hall.
  - done.
  - rewrite fire_cons in *. cbn [fst snd map] in *.
    apply Forall_cons in Hall as [Ha Hall]. cbn [vs.document] in Ha.
    rewrite run_cons. cbn [fst snd handle].
    rewrite overlaysOf_app, replay_app.
    rewrite replay_one_change by done.
    change (fsPath env (vs.uri td))
      with (fsPath env (vs.uri (Editor.edit applyBatch td changes))).
    by apply IH.
Qed.

End RoundTrip.

Lemma C2_replay_reproduces_text_witness :
  vs.getText
    (Editor.fire applySequence (sampleDoc "/ws/main.dart" "a")
       [ [sampleChange]; [];
         [ {| vs.rangeOffset := 2; vs.rangeLength := 0; vs.text := "c" |};
           {| vs.rangeOffset := 0; vs.rangeLength := 1; vs.text := "" |} ] ]).2
  = "bc"
  /\ Server.replay applySequence "/ws/main.dart" "a"
       (overlaysOf
          (run {| filesWarnedAbout := ∅ |}
             (map (fun e => (sampleEnv, DidChangeTextDocument e))
                (Editor.fire applySequence (sampleDoc "/ws/main.dart" "a")
                   [ [sampleChange]; [];
                     [ {| vs.rangeOffset := 2; vs.rangeLength := 0;
                          vs.text := "c" |};
                       {| vs.rangeOffset := 0; vs.rangeLength := 1;
                          vs.text := "" |} ] ]).1)).2)
     = vs.getText
         (Editor.fire applySequence (sampleDoc "/ws/main.dart" "a")
            [ [sampleChange]; [];
              [ {| vs.rangeOffset := 2; vs.rangeLength := 0; vs.text := "c" |};
                {| vs.rangeOffset := 0; vs.rangeLength := 1; vs.text := "" |} ] ]).2.
Proof.
  split; [vm_compute; reflexivity|].
  apply (C2_replay_reproduces_text applySequence (fun content => eq_refl)
           sampleEnv {| filesWarnedAbout := ∅ |}
           (sampleDoc "/ws/main.dart" "a")
           [ [sampleChange]; [];
             [ {| vs.rangeOffset := 2; vs.rangeLength := 0; vs.text := "c" |};
               {| vs.rangeOffset := 0; vs.rangeLength := 1; vs.text := "" |} ] ]).
  repeat constructor.
Defined.

(** * Further properties of the handler *)

Lemma warningsOf_app (out out' : list Effect) :
  warningsOf (out ++ out') = warningsOf out ++ warningsOf out'.
Proof.
  induction out as [|[m|r] out IH]; simpl; [done | by rewrite IH | done].
Qed.

Lemma run_opens (env : Env) (this : t) (docs : list vs.TextDocument) :
  run this (map (fun td => (env, DidOpenTextDocument td)) docs) =
    (this,
     map (fun td =>
            analysisUpdateContent
              {| AS.files := {[ fsPath env (vs.uri td) :=
                                  AS.AddContentOverlay (vs.getText td) ]} |})
         (List.filter (isAnalyzable env) docs)).
Proof.
  induction docs as [|td docs IH]; [done|].
  cbn [map List.filter]. rewrite run_cons. cbn [handle].
  destruct (isAnalyzable env td) eqn:Ha.
  - rewrite onDidOpenTextDocument_analyzable by done. cbn [fst snd].
    by rewrite IH.
  - unfold onDidOpenTextDocument. rewrite Ha. cbn [negb fst snd].
    by rewrite IH.
Qed.

(** X1: constructing the handler sends one add overlay for every
    analyzable document that is already open, in the order of
    [vs.workspace.textDocuments] and each with the document's full text;
    documents that are not analyzable are skipped, no warning is shown, and
    the set of files warned about starts empty. *)
Theorem X1_constructor_adds_open_documents
    (env : Env) (textDocuments : list vs.TextDocument) :
  constructor env textDocuments =
    ({| filesWarnedAbout := ∅ |},
     map (fun td =>
            analysisUpdateContent
              {| AS.files := {[ fsPath env (vs.uri td) :=
                                  AS.AddContentOverlay (vs.getText td) ]} |})
         (List.filter (isAnalyzable env) textDocuments)).
Proof. unfold constructor. apply run_opens. Qed.

Lemma handle_overlays_stateless (env : Env) (this this' : t) (ev : Event) :
  overlaysOf (handle env this ev).2 = overlaysOf (handle env this' ev).2
  /\ (List.length (overlaysOf (handle env this ev).2) <= 1)%nat.
Proof.
  destruct ev as [td|e|td]; cbn [handle];
    unfold onDidOpenTextDocument, onDidChangeTextDocument,
      onDidCloseTextDocument.
  - destruct (negb _); cbn; split; (done || lia).
  - destruct (negb _); [cbn; split; (done || lia)|].
    destruct (_ =? _)%nat; [cbn; split; (done || lia)|].
    destruct (_ && _ && _), (_ && _ && _);
      cbn [fst snd app overlaysOf List.length]; split; (done || lia).
  - destruct (negb _); cbn; split; (done || lia).
Qed.

(** X2: which requests are sent does not depend on the handler's state:
    two handlers that differ in the files they have warned about send the
    same requests for the same events; and an event sends at most one
    request, so a run sends at most as many requests as it has events. *)
Theorem X2_requests_do_not_depend_on_state
    (this this' : t) (events : list (Env * Event)) :
  overlaysOf (run this events).2 = overlaysOf (run this' events).2
  /\ (List.length (overlaysOf (run this events).2) <= List.length events)%nat.
Proof.
  revert this this'. induction events as [|[env ev] events IH]; intros this this'.
  - split; [done | simpl; lia].
  - rewrite !run_cons. cbn [snd]. rewrite !overlaysOf_app, length_app.
    destruct (handle_overlays_stateless env this this' ev) as [Heq Hle].
    destruct (IH (handle env this ev).1 (handle env this' ev).1) as [Heq' Hle'].
    split; [by rewrite Heq, Heq' | simpl; lia].
Qed.

(** One event: a path is in the set afterwards exactly when it was there
    before or this event warned about it. *)
Lemma handle_filesWarnedAbout_iff (env : Env) (this : t) (ev : Event)
    (p : string) :
  p ∈ filesWarnedAbout (handle env this ev).1
  <-> p ∈ filesWarnedAbout this \/ warningsFor p (handle env this ev).2 = 1%nat.
Proof.
  split.
  - destruct ev as [td|e|td]; cbn [handle];
      unfold onDidOpenTextDocument, onDidChangeTextDocument,
        onDidCloseTextDocument.
    + destruct (negb _); cbn [fst]; auto.
    + destruct (negb _); [cbn [fst]; by auto|].
      destruct (_ =? _)%nat; [cbn [fst]; by auto|].
      set (q := fsPath env (vs.uri (vs.document e))).
      destruct (_ && _ && _);
        cbn [fst snd app warningsFor filesWarnedAbout]; [|by auto].
      intros [Hq|Hin]%elem_of_union; [|by left].
      apply elem_of_singleton in Hq. subst p. right.
      by rewrite bool_decide_eq_true_2.
    + destruct (negb _); cbn [fst]; auto.
  - intros [Hin|Hone].
    + by apply (handle_filesWarnedAbout_mono env this ev).
    + by apply handle_warning_bound.
Qed.

Lemma run_filesWarnedAbout_iff (this : t) (events : list (Env * Event))
    (p : string) :
  p ∈ filesWarnedAbout (run this events).1
  <-> p ∈ filesWarnedAbout this \/ warningsFor p (run this events).2 = 1%nat.
Proof.
  revert this. induction events as [|[env ev] events IH]; intros this.
  - cbn. split; [by left | intros [?|?]; [done | lia]].
  - rewrite run_cons. cbn [fst snd]. rewrite warningsFor_app, IH.
    rewrite handle_filesWarnedAbout_iff.
    destruct (handle_warning_bound env this ev p) as [Hle Hset].
    destruct (run_warning_bound (handle env this ev).1 events p) as [Hle' _].
    split.
    + intros [[Hin|Hone]|Hone]; [by left | right | right].
      * rewrite (run_warned_silent _ events p) by auto. lia.
      * destruct (decide (warningsFor p (handle env this ev).2 = 1%nat))
          as [H1|H1]; [|lia].
        rewrite (run_warned_silent _ events p) in Hone by auto. lia.
    + intros [Hin|Hone]; [by left; left|].
      destruct (decide (warningsFor p (handle env this ev).2 = 1%nat))
        as [H1|H1]; [by left; right | right; lia].
Qed.

(** X3: at any point of a session, [filesWarnedAbout] holds exactly the
    paths for which the warning has been shown: a path is in the set if
    and only if the warning for it was shown (once) so far. *)
Theorem X3_filesWarnedAbout_is_the_paths_warned
    (env0 : Env) (docs : list vs.TextDocument) (events : list (Env * Event))
    (filePath : string) :
  filePath ∈ filesWarnedAbout (session env0 docs events).1
  <-> warningsFor filePath (session env0 docs events).2 = 1%nat.
Proof.
  rewrite session_eq, run_filesWarnedAbout_iff. cbn [filesWarnedAbout].
  split; [intros [Hin|Hone]; [set_solver | done] | by right].
Qed.

Lemma handle_warnings_warranted (env : Env) (this : t) (ev : Event) :
  Forall (fun m => exists e,
            ev = DidChangeTextDocument e
            /\ warrantsWarning env e = true
            /\ (fsPath env (vs.uri (vs.document e)) ∉ filesWarnedAbout this)
            /\ m = outsideWorkspaceWarning (fsPath env (vs.uri (vs.document e))))
         (warningsOf (handle env this ev).2).
Proof.
  destruct ev as [td|e|td]; cbn [handle];
    unfold onDidOpenTextDocument, onDidChangeTextDocument,
      onDidCloseTextDocument.
  - destruct (negb _); cbn; constructor.
  - destruct (isAnalyzable env (vs.document e)) eqn:Ha; cbn [negb];
      [|constructor].
    destruct (_ =? _)%nat eqn:Hne; [constructor|].
    destruct (warnWhenEditingFilesOutsideWorkspace env) eqn:Hflag;
      cbn [andb]; [|repeat constructor].
    case_bool_decide as Hin; cbn [negb andb]; [repeat constructor|].
    destruct (isWithinWorkspace env _) eqn:Hout;
      cbn [negb fst snd app warningsOf]; repeat constructor.
    exists e. unfold warrantsWarning. by rewrite Ha, Hne, Hflag, Hout.
  - destruct (negb _); cbn; constructor.
Qed.

(** X4: the handler warns only when it should.  Every warning shown in a
    session comes from a change event of that session, on an analyzable
    document with at least one change, fired while the setting was on and
    the document's path was outside the workspace, and its text names that
    path; opening or closing a document, and the constructor, never show
    one. *)
Theorem X4_warnings_only_when_warranted
    (env0 : Env) (docs : list vs.TextDocument) (events : list (Env * Event)) :
  warningsOf (constructor env0 docs).2 = []
  /\ Forall (fun m => exists env e,
               (env, DidChangeTextDocument e) ∈ events
               /\ warrantsWarning env e = true
               /\ m = outsideWorkspaceWarning
                        (fsPath env (vs.uri (vs.document e))))
            (warningsOf (session env0 docs events).2).
Proof.
  assert (warningsOf (constructor env0 docs).2 = []) as Hc.
  { unfold constructor. rewrite run_opens. cbn [snd].
    induction (List.filter _ docs) as [|td l IH]; [done | exact IH]. }
  split; [exact Hc|].
  unfold session. destruct (constructor env0 docs) as [this0 out0].
  cbn [snd] in Hc.
  assert (forall this,
    Forall (fun m => exists env e,
               (env, DidChangeTextDocument e) ∈ events
               /\ warrantsWarning env e = true
               /\ m = outsideWorkspaceWarning
                        (fsPath env (vs.uri (vs.document e))))
           (warningsOf (run this events).2)) as Hrun.
  { induction events as [|[env ev] events IH]; intros this; [constructor|].
    rewrite run_cons. cbn [snd]. rewrite warningsOf_app. apply Forall_app.
    split.
    - eapply Forall_impl; [apply handle_warnings_warranted|].
      intros m (e & -> & Hw & _ & ->). exists env, e.
      split; [left | done].
    - eapply Forall_impl; [apply IH|].
      intros m (env' & e & Hin & Hw & ->). exists env', e.
      split; [by right | done]. }
  specialize (Hrun this0). destruct (run this0 events) as [this1 out1].
  cbn [snd] in *. by rewrite warningsOf_app, Hc.
Qed.

Lemma handle_warranted_recorded (env : Env) (this : t)
    (e : vs.TextDocumentChangeEvent) :
  warrantsWarning env e = true ->
  fsPath env (vs.uri (vs.document e))
    ∈ filesWarnedAbout (handle env this (DidChangeTextDocument e)).1.
Proof.
  unfold warrantsWarning. intros Hw.
  apply andb_true_iff in Hw as [Hw Hout].
  apply andb_true_iff in Hw as [Hw Hflag].
  apply andb_true_iff in Hw as [Ha Hne].
  cbn [handle]. unfold onDidChangeTextDocument.
  rewrite Ha. cbn [negb].
  apply negb_true_iff in Hne. rewrite Hne, Hflag, Hout. cbn [negb andb].
  case_bool_decide as Hin; cbn [negb andb fst filesWarnedAbout];
    [done | set_solver].
Qed.

(** X5: the handler warns whenever it should.  If a session contains a
    change event on an analyzable document, with at least one change,
    fired while the setting was on and the path was outside the workspace,
    then by the end of the session the warning for that path has been
    shown exactly once. *)
Theorem X5_warranted_change_is_warned_once
    (env0 : Env) (docs : list vs.TextDocument) (events : list (Env * Event))
    (env : Env) (e : vs.TextDocumentChangeEvent) :
  (env, DidChangeTextDocument e) ∈ events ->
  warrantsWarning env e = true ->
  warningsFor (fsPath env (vs.uri (vs.document e)))
    (session env0 docs events).2 = 1%nat.
Proof.
  intros Hin Hw.
  apply list_elem_of_split in Hin as (before & after & ->).
  rewrite session_eq.
  assert (fsPath env (vs.uri (vs.document e))
            ∈ filesWarnedAbout
                (run {| filesWarnedAbout := ∅ |}
                   (map (fun td => (env0, DidOpenTextDocument td)) docs
                      ++ before ++ (env, DidChangeTextDocument e) :: after)).1)
    as Hset.
  { rewrite app_assoc, run_app. cbn [fst].
    rewrite run_cons. cbn [fst].
    apply run_filesWarnedAbout_mono.
    by apply handle_warranted_recorded. }
  apply run_filesWarnedAbout_iff in Hset as [Hset|Hone]; [set_solver | done].
Qed.

Lemma X5_warranted_change_is_warned_once_witness :
  warningsFor "/tmp/x.dart"
    (session sampleEnv [sampleDoc "/tmp/x.dart" "a"]
       [ (sampleEnv, DidCloseTextDocument (sampleDoc "/tmp/x.dart" "a"));
         (sampleEnv,
          DidChangeTextDocument
            {| vs.document := sampleDoc "/tmp/x.dart" "ab";
               vs.contentChanges := [sampleChange] |}) ]).2 = 1%nat.
Proof.
  apply (X5_warranted_change_is_warned_once sampleEnv
           [sampleDoc "/tmp/x.dart" "a"]
           [ (sampleEnv, DidCloseTextDocument (sampleDoc "/tmp/x.dart" "a"));
             (sampleEnv,
              DidChangeTextDocument
                {| vs.document := sampleDoc "/tmp/x.dart" "ab";
                   vs.contentChanges := [sampleChange] |}) ]
           sampleEnv
           {| vs.document := sampleDoc "/tmp/x.dart" "ab";
              vs.contentChanges := [sampleChange] |});
    [by right; left | reflexivity].
Defined.

(** * The test helpers *)

Import helpers.

(** ** [filenameSafe] *)

Lemma toLowerCaseChar_alphanumeric (c : ascii) :
  isAlphanumeric c = true ->
  isSafeChar (toLowerCaseChar c) = true /\ toLowerCaseChar c <> "_"%char.
Proof.
  destruct c as [[] [] [] [] [] [] [] []]; vm_compute; intros H;
    (discriminate H || (split; [reflexivity | discriminate])).
Qed.

Lemma isSafeChar_cases (c : ascii) :
  isSafeChar c = true ->
  toLowerCaseChar c = c /\ (isAlphanumeric c = true \/ c = "_"%char).
Proof.
  destruct c as [[] [] [] [] [] [] [] []]; vm_compute; intros H;
    (discriminate H || (split; [reflexivity | (by left) || (by right)])).
Qed.

Lemma isAlphanumeric_not_underscore (c : ascii) :
  isAlphanumeric c = true -> c <> "_"%char.
Proof. intros H ->. vm_compute in H. discriminate. Qed.



Lemma replaceRuns_safe (inRun : bool) (s : string) :
  allChars isSafeChar (toLowerCase (replaceRuns inRun s)) = true.
Proof.
  revert inRun. induction s as [|c s IH]; intros inRun; simpl; [done|].
  destruct (isAlphanumeric c) eqn:Hc.
  - simpl. rewrite IH.
    by destruct (toLowerCaseChar_alphanumeric c Hc) as [-> _].
  - destruct inRun; [apply IH|]. cbn [toLowerCase allChars]. by rewrite IH.
Qed.

Lemma replaceRuns_underscores (inRun : bool) (s : string) :
  noAdjacentUnderscores (toLowerCase (replaceRuns inRun s)) = true
  /\ (inRun = true ->
      startsWithUnderscore (toLowerCase (replaceRuns inRun s)) = false).
Proof.
  revert inRun. induction s as [|c s IH]; intros inRun; simpl; [done|].
  destruct (isAlphanumeric c) eqn:Hc.
  - destruct (toLowerCaseChar_alphanumeric c Hc) as [_ Hne].
    cbn [toLowerCase noAdjacentUnderscores startsWithUnderscore].
    rewrite (bool_decide_eq_false_2 _ Hne). cbn [andb negb].
    by destruct (IH false) as [-> _].
  - destruct inRun; [apply IH|].
    destruct (IH true) as [Hno Hstart].
    cbn [toLowerCase noAdjacentUnderscores startsWithUnderscore].
    rewrite Hno, Hstart by done. split; [|done].
    by case_bool_decide.
Qed.

Lemma replaceRuns_fixed (inRun : bool) (s : string) :
  allChars isSafeChar s = true ->
  noAdjacentUnderscores s = true ->
  (inRun = true -> startsWithUnderscore s = false) ->
  replaceRuns inRun s = s /\ toLowerCase s = s.
Proof.
  revert inRun. induction s as [|c s IH]; intros inRun Hsafe Hno Hstart;
    [done|].
  cbn [allChars noAdjacentUnderscores startsWithUnderscore] in *.
  apply andb_true_iff in Hsafe as [Hc Hsafe].
  apply andb_true_iff in Hno as [Hadj Hno].
  destruct (isSafeChar_cases c Hc) as [Hlow [Halnum| ->]].
  - cbn [replaceRuns toLowerCase]. rewrite Halnum, Hlow.
    destruct (IH false Hsafe Hno) as [-> ->]; done.
  - rewrite bool_decide_eq_true_2 in Hadj, Hstart by done.
    destruct inRun; [by specialize (Hstart eq_refl)|].
    cbn [andb] in Hadj. apply negb_true_iff in Hadj.
    cbn [replaceRuns toLowerCase].
    change (isAlphanumeric "_") with false. cbn match.
    destruct (IH true Hsafe Hno) as [-> ->]; done.
Qed.

(** X6: a name made by [filenameSafe] consists of lowercase ASCII letters,
    digits and underscores only, whatever the input: no path separator, no
    dot, no space, no uppercase letter. *)
Theorem X6_filenameSafe_alphabet (input : string) :
  allChars isSafeChar (filenameSafe input) = true.
Proof. apply replaceRuns_safe. Qed.


(** X8: [filenameSafe] changes nothing in a name that is already safe
    (lowercase letters, digits and underscores, no two underscores in a
    row); in particular applying it twice is the same as applying it
    once. *)
Theorem X8_filenameSafe_idempotent (input name : string) :
  filenameSafe (filenameSafe input) = filenameSafe input
  /\ (allChars isSafeChar name = true ->
      noAdjacentUnderscores name = true ->
      filenameSafe name = name).
Proof.
  assert (forall s, allChars isSafeChar s = true ->
                    noAdjacentUnderscores s = true ->
                    filenameSafe s = s) as Hfixed.
  { intros s Hsafe Hno. unfold filenameSafe.
    destruct (replaceRuns_fixed false s Hsafe Hno) as [-> ->]; done. }
  split; [|apply Hfixed].
  apply Hfixed; [apply replaceRuns_safe | apply replaceRuns_underscores].
Qed.

Lemma X8_filenameSafe_idempotent_witness :
  filenameSafe "Dart: formats the code (on-type)!" = "dart_formats_the_code_on_type_"
  /\ filenameSafe "dart_formats_the_code_on_type_" = "dart_formats_the_code_on_type_".
Proof.
  split; [vm_compute; reflexivity|].
  apply (X8_filenameSafe_idempotent "" "dart_formats_the_code_on_type_");
    vm_compute; reflexivity.
Defined.

(** ** [waitFor] and [tryFor] *)

Lemma waitForLoop_unfold (action : nat -> bool) (calls : nat) (t : Z) :
  waitForLoop action calls t =
    if decide (0 < t) then
      if action calls then (S calls, true)
      else waitForLoop action (S calls) (t - 20)
    else (calls, false).
Proof.
  rewrite (waitForLoop_equation_1 action calls t).
  destruct (Z_lt_dec 0 t), (decide (0 < t)); simpl; (done || lia).
Qed.

Lemma waitForLoop_result (action : nat -> bool) (calls : nat) (t : Z) :
  (calls <= (waitForLoop action calls t).1)%nat
  /\ (forall j : nat,
        (calls <= j)%nat ->
        (j + (if (waitForLoop action calls t).2 then 1 else 0)
         < (waitForLoop action calls t).1)%nat ->
        action j = false)
  /\ (if (waitForLoop action calls t).2
      then (calls < (waitForLoop action calls t).1)%nat
           /\ action ((waitForLoop action calls t).1 - 1)%nat = true
           /\ 20 * Z.of_nat ((waitForLoop action calls t).1 - 1 - calls) < t
      else (waitForLoop action calls t).1
           = (calls + Z.to_nat ((t + 19) / 20))%nat).
Proof.
  remember (Z.to_nat t) as n eqn:Hn. revert calls t Hn.
  induction n as [n IH] using lt_wf_ind. intros calls t Hn.
  rewrite waitForLoop_unfold. destruct (decide (0 < t)) as [Hpos|Hneg].
  - destruct (action calls) eqn:Hcall.
    + cbn [fst snd]. split; [lia|]. split; [intros j ? ?; lia|].
      replace (S calls - 1)%nat with calls by lia.
      split; [lia|]. split; [done | lia].
    + destruct (IH (Z.to_nat (t - 20)) ltac:(lia) (S calls) (t - 20) eq_refl)
        as (Hle & Hfalse & Hend).
      split; [lia|]. split.
      * intros j Hj Hlt. destruct (decide (j = calls)) as [->|Hne]; [done|].
        apply Hfalse; [lia | done].
      * destruct (waitForLoop action (S calls) (t - 20)).2.
        -- destruct Hend as (H1 & H2 & H3). split; [lia|]. split; [done|lia].
        -- rewrite Hend. 
           replace (t - 20 + 19) with ((t + 19) + (-1) * 20) by lia.
           rewrite Z.div_add by lia.
           assert (1 <= (t + 19) / 20) by (apply Z.div_le_lower_bound; lia).
           lia.
  - cbn [fst snd]. split; [lia|]. split; [intros j ? ?; lia|].
    assert ((t + 19) / 20 < 1) by (apply Z.div_lt_upper_bound; lia).
    lia.
Qed.

Lemma tryForLoop_unfold (action : nat -> option string) (calls : nat) (t : Z) :
  tryForLoop action calls t =
    if decide (0 < t) then
      match action calls with
      | None => (S calls, true)
      | Some _ => tryForLoop action (S calls) (t - 20)
      end
    else (calls, false).
Proof.
  rewrite (tryForLoop_equation_1 action calls t).
  destruct (Z_lt_dec 0 t), (decide (0 < t)); simpl; (done || lia).
Qed.

(** The loop of [tryFor] is the loop of [waitFor] for the action "the
    call did not throw". *)
Lemma tryForLoop_waitForLoop (action : nat -> option string) (calls : nat)
    (t : Z) :
  tryForLoop action calls t
  = waitForLoop (fun k => bool_decide (action k = None)) calls t.
Proof.
  remember (Z.to_nat t) as n eqn:Hn. revert calls t Hn.
  induction n as [n IH] using lt_wf_ind. intros calls t Hn.
  rewrite tryForLoop_unfold, waitForLoop_unfold.
  destruct (decide (0 < t)) as [Hpos|Hneg]; [|done].
  destruct (action calls) as [error|] eqn:Hcall.
  - rewrite bool_decide_eq_false_2 by done.
    apply (IH (Z.to_nat (t - 20))); [lia | done].
  - by rewrite bool_decide_eq_true_2.
Qed.

(** X9: with a timeout of zero or less [waitFor] never calls the action,
    not even once: it throws the timeout error at once (or returns, when
    [throwOnFailure] is false) although the condition may already hold. *)
Theorem X9_waitFor_nonpositive_timeout_never_polls
    (action : nat -> bool) (message : option string) (milliseconds : Z)
    (throwOnFailure : option bool) :
  milliseconds <= 0 ->
  waitFor action message (Some milliseconds) throwOnFailure =
    (0%nat,
     if default true throwOnFailure then Throws (timeoutMessage message)
     else Returns).
Proof.
  intros Hms. unfold waitFor.
  change (default 2000 (Some milliseconds)) with milliseconds.
  rewrite waitForLoop_unfold. destruct (decide (0 < milliseconds)); [lia|].
  by destruct throwOnFailure as [[]|].
Qed.

Lemma X9_waitFor_nonpositive_timeout_never_polls_witness :
  waitFor (fun _ => true) (Some "ready") (Some 0) None =
    (0%nat,
     Throws "Action didn't return true within specified timeout (ready)").
Proof.
  apply (X9_waitFor_nonpositive_timeout_never_polls
           (fun _ => true) (Some "ready") 0 None).
  lia.
Defined.

(** X10: if the action first answers true at its call number [k] (from 0)
    and that call falls inside the timeout (20 ms for each call before
    it), [waitFor] returns normally after exactly [k + 1] calls, whatever
    [throwOnFailure] is. *)
Theorem X10_waitFor_returns_at_first_true
    (action : nat -> bool) (message : option string) (milliseconds : option Z)
    (throwOnFailure : option bool) (k : nat) :
  action k = true ->
  (forall j : nat, (j < k)%nat -> action j = false) ->
  20 * Z.of_nat k < default 2000 milliseconds ->
  waitFor action message milliseconds throwOnFailure = (S k, Returns).
Proof.
  intros Hk Hbefore Htime. unfold waitFor.
  destruct (waitForLoop_result action 0 (default 2000 milliseconds))
    as (_ & Hfalse & Hend).
  destruct (waitForLoop action 0 (default 2000 milliseconds)) as [c r].
  cbn [fst snd] in *. destruct r.
  - destruct Hend as (Hc & Htrue & _).
    assert (c = S k) as ->; [|done].
    destruct (decide (c - 1 < k)%nat) as [Hlt|Hge].
    + rewrite (Hbefore _ Hlt) in Htrue. discriminate.
    + destruct (decide (k < c - 1)%nat) as [Hlt|Hge']; [|lia].
      rewrite (Hfalse k) in Hk by lia. discriminate.
  - assert (1 <= (default 2000 milliseconds + 19) / 20 - Z.of_nat k) as Hdiv.
    { replace (default 2000 milliseconds + 19)
        with ((default 2000 milliseconds + 19 - 20 * Z.of_nat k)
              + Z.of_nat k * 20) by lia.
      rewrite Z.div_add by lia.
      assert (1 <= (default 2000 milliseconds + 19 - 20 * Z.of_nat k) / 20)
        by (apply Z.div_le_lower_bound; lia).
      lia. }
    rewrite (Hfalse k) in Hk by lia. discriminate.
Qed.

Lemma X10_waitFor_returns_at_first_true_witness :
  waitFor (fun k => (3 <=? k)%nat) None (Some 100) (Some true)
  = (4%nat, Returns).
Proof.
  apply (X10_waitFor_returns_at_first_true
           (fun k => (3 <=? k)%nat) None (Some 100) (Some true) 3);
    [reflexivity | | cbn; lia].
  intros j Hj. apply Nat.leb_gt. lia.
Defined.

(** X11: if the action answers false at every call that falls inside the
    timeout, [waitFor] calls it once per started 20 ms of the timeout and
    then throws the timeout error, with the caller's message in brackets
    when it is not empty; when [throwOnFailure] is false it returns
    normally instead. *)
Theorem X11_waitFor_times_out
    (action : nat -> bool) (message : option string) (milliseconds : option Z)
    (throwOnFailure : option bool) :
  (forall j : nat,
     20 * Z.of_nat j < default 2000 milliseconds -> action j = false) ->
  waitFor action message milliseconds throwOnFailure =
    (startedPeriods (default 2000 milliseconds),
     if default true throwOnFailure then Throws (timeoutMessage message)
     else Returns).
Proof.
  intros Hall. unfold waitFor, startedPeriods.
  destruct (waitForLoop_result action 0 (default 2000 milliseconds))
    as (_ & _ & Hend).
  destruct (waitForLoop action 0 (default 2000 milliseconds)) as [c r].
  cbn [fst snd] in *. destruct r.
  - destruct Hend as (_ & Htrue & Htime).
    rewrite Hall in Htrue by lia. discriminate.
  - rewrite Hend. cbn [Nat.add]. by destruct throwOnFailure as [[]|].
Qed.

Lemma X11_waitFor_times_out_witness :
  waitFor (fun _ => false) (Some "Document content did not match expected")
    (Some 100) (Some false)
  = (5%nat, Returns)
  /\ waitFor (fun _ => false) None None None
     = (100%nat, Throws "Action didn't return true within specified timeout").
Proof.
  split.
  - apply (X11_waitFor_times_out (fun _ => false)
             (Some "Document content did not match expected")
             (Some 100) (Some false)).
    reflexivity.
  - apply (X11_waitFor_times_out (fun _ => false) None None None).
    reflexivity.
Defined.

(** X12: when [throwOnFailure] is true (or left out) and [waitFor] returns
    normally, the action was called at least once, its last call answered
    true, all calls before it answered false, and the last call fell
    inside the timeout. *)
Theorem X12_waitFor_return_means_condition_held
    (action : nat -> bool) (message : option string) (milliseconds : option Z)
    (throwOnFailure : option bool) (calls : nat) :
  default true throwOnFailure = true ->
  waitFor action message milliseconds throwOnFailure = (calls, Returns) ->
  (0 < calls)%nat
  /\ action (calls - 1)%nat = true
  /\ (forall j : nat, (j < calls - 1)%nat -> action j = false)
  /\ 20 * Z.of_nat (calls - 1) < default 2000 milliseconds.
Proof.
  intros Hthrow. unfold waitFor. rewrite Hthrow.
  destruct (waitForLoop_result action 0 (default 2000 milliseconds))
    as (_ & Hfalse & Hend).
  destruct (waitForLoop action 0 (default 2000 milliseconds)) as [c r].
  cbn [fst snd] in *. destruct r; [|discriminate].
  intros [= ->]. destruct Hend as (Hc & Htrue & Htime).
  split; [done|]. split; [done|]. split.
  - intros j Hj. apply Hfalse; lia.
  - by rewrite Nat.sub_0_r in Htime.
Qed.

Lemma X12_waitFor_return_means_condition_held_witness :
  (0 < 4)%nat
  /\ (3 <=? 4 - 1)%nat = true
  /\ (forall j : nat, (j < 4 - 1)%nat -> (3 <=? j)%nat = false)
  /\ 20 * Z.of_nat (4 - 1) < 100.
Proof.
  apply (X12_waitFor_return_means_condition_held
           (fun k => (3 <=? k)%nat) None (Some 100) None 4);
    [reflexivity | vm_compute; reflexivity].
Defined.

(** X13: [tryFor] always runs the action at least once, even with a
    timeout of zero or less, and at most once more than the timeout has
    started 20 ms periods; every call but the last threw; it returns
    normally exactly when the last call did not throw, and otherwise it
    throws that last call's error, after all its calls failed. *)
Theorem X13_tryFor_outcome_is_the_last_call
    (action : nat -> option string) (milliseconds : option Z) :
  (1 <= (tryFor action milliseconds).1)%nat
  /\ ((tryFor action milliseconds).1
      <= startedPeriods (default 2000%Z milliseconds) + 1)%nat
  /\ (forall j : nat,
        (j < (tryFor action milliseconds).1 - 1)%nat -> action j <> None)
  /\ match (tryFor action milliseconds).2 with
     | Returns => action ((tryFor action milliseconds).1 - 1)%nat = None
     | Throws error =>
         action ((tryFor action milliseconds).1 - 1)%nat = Some error
         /\ (tryFor action milliseconds).1
            = (startedPeriods (default 2000%Z milliseconds) + 1)%nat
     end.
Proof.
  unfold tryFor, startedPeriods. rewrite tryForLoop_waitForLoop.
  destruct (waitForLoop_result (fun k => bool_decide (action k = None)) 0
              (default 2000 milliseconds)) as (_ & Hfalse & Hend).
  destruct (waitForLoop _ 0 (default 2000 milliseconds)) as [c r].
  cbn [fst snd] in *.
  assert (forall j : nat, (j + (if r then 1 else 0) < c)%nat -> action j <> None)
    as Hthrew.
  { intros j Hj Hnone. specialize (Hfalse j ltac:(lia) Hj).
    by apply bool_decide_eq_false in Hfalse. }
  destruct r.
  - destruct Hend as (Hc & Htrue & Htime). cbn [fst snd].
    apply bool_decide_eq_true in Htrue.
    assert (1 <= (default 2000 milliseconds + 19) / 20 - Z.of_nat (c - 1))
      as Hdiv.
    { replace (default 2000 milliseconds + 19)
        with ((default 2000 milliseconds + 19 - 20 * Z.of_nat (c - 1))
              + Z.of_nat (c - 1) * 20) by lia.
      rewrite Z.div_add by lia.
      assert (1 <= (default 2000 milliseconds + 19
                    - 20 * Z.of_nat (c - 1)) / 20)
        by (apply Z.div_le_lower_bound; lia).
      lia. }
    split; [lia|]. split; [lia|]. split; [|done].
    intros j Hj. apply Hthrew. lia.
  - cbn [Nat.add] in Hend.
    destruct (action c) as [error|] eqn:Hlast; cbn [fst snd];
      replace (S c - 1)%nat with c by lia.
    + split; [lia|]. split; [lia|]. split; [|split; [done | lia]].
      intros j Hj. apply Hthrew. lia.
    + split; [lia|]. split; [lia|]. split; [|done].
      intros j Hj. apply Hthrew. lia.
Qed.

(** * Deferred clean-up *)

Lemma runDeferred_called (state : option deferred.TestState)
    (items : list deferred.Callback) (firstError : deferred.Thrown) :
  deferred.calledOf (deferred.runDeferred state items firstError).1 = items.
Proof.
  revert firstError. induction items as [|d items IH]; intros firstError;
    [done|].
  cbn [deferred.runDeferred]. destruct (deferred.call d state) as [e|].
  - specialize (IH (if deferred.truthy firstError then firstError else e)).
    destruct (deferred.runDeferred state items _) as [steps final].
    cbn [fst deferred.calledOf] in *. by rewrite IH.
  - specialize (IH firstError).
    destruct (deferred.runDeferred state items firstError) as [steps final].
    cbn [fst deferred.calledOf] in *. by rewrite IH.
Qed.

Lemma runDeferred_firstError (state : option deferred.TestState)
    (items : list deferred.Callback) (firstError : deferred.Thrown) :
  (if deferred.truthy (deferred.runDeferred state items firstError).2
   then Some (deferred.runDeferred state items firstError).2 else None)
  = if deferred.truthy firstError then Some firstError
    else deferred.firstTruthy state items.
Proof.
  revert firstError. induction items as [|d items IH]; intros firstError.
  - cbn. by destruct (deferred.truthy firstError).
  - cbn [deferred.runDeferred deferred.firstTruthy].
    destruct (deferred.call d state) as [e|].
    + specialize (IH (if deferred.truthy firstError then firstError else e)).
      destruct (deferred.runDeferred state items _) as [steps final].
      cbn [snd] in *. rewrite IH.
      destruct (deferred.truthy firstError) eqn:Hfe; [by rewrite Hfe|].
      done.
    + specialize (IH firstError).
      destruct (deferred.runDeferred state items firstError) as [steps final].
      cbn [snd] in *. by rewrite IH.
Qed.

Lemma register_all (rs : list deferred.Registration)
    (registry : deferred.Registry) :
  foldl deferred.register registry rs =
    {| deferred.deferredItems :=
         deferred.deferredItems registry ++ deferred.deferredOf rs;
       deferred.deferredToLastItems :=
         deferred.deferredToLastItems registry
           ++ deferred.deferredUntilLastOf rs |}.
Proof.
  revert registry. induction rs as [|r rs IH]; intros registry.
  - cbn. destruct registry. by rewrite !app_nil_r.
  - cbn [foldl]. rewrite IH.
    destruct r; cbn; by rewrite <- ?app_assoc.
Qed.

(** X14: the hook calls every registered callback exactly once, those
    registered with [defer] first and those registered with
    [deferUntilLast] after them, each group in the order of registration;
    a callback that throws does not stop the ones after it.  Afterwards
    both lists are empty, so running the hook again calls nothing. *)
Theorem X14_afterEach_calls_every_callback
    (state : option deferred.TestState) (registry : deferred.Registry) :
  deferred.calledOf (deferred.afterEach state registry).1.2
    = deferred.deferredItems registry ++ deferred.deferredToLastItems registry
  /\ (deferred.afterEach state registry).1.1
     = {| deferred.deferredItems := []; deferred.deferredToLastItems := [] |}
  /\ (deferred.afterEach state (deferred.afterEach state registry).1.1).1.2
     = [].
Proof.
  unfold deferred.afterEach.
  pose proof (runDeferred_called state
                (deferred.deferredItems registry
                   ++ deferred.deferredToLastItems registry)
                deferred.undefined) as Hcalled.
  destruct (deferred.runDeferred state _ deferred.undefined)
    as [steps final].
  cbn [fst snd] in *. done.
Qed.

(** X15: whatever the order in which a test registers its callbacks, the
    hook calls all those given to [defer], in their order, before all
    those given to [deferUntilLast], in theirs. *)
Theorem X15_deferUntilLast_runs_after_defer
    (state : option deferred.TestState) (rs : list deferred.Registration) :
  deferred.calledOf
    (deferred.afterEach state
       (foldl deferred.register
          {| deferred.deferredItems := [];
             deferred.deferredToLastItems := [] |} rs)).1.2
  = deferred.deferredOf rs ++ deferred.deferredUntilLastOf rs.
Proof.
  rewrite register_all. unfold deferred.afterEach.
  cbn [deferred.deferredItems deferred.deferredToLastItems app].
  pose proof (runDeferred_called state
                (deferred.deferredOf rs ++ deferred.deferredUntilLastOf rs)
                deferred.undefined) as Hcalled.
  destruct (deferred.runDeferred state _ deferred.undefined)
    as [steps final].
  cbn [fst snd] in *. done.
Qed.

(** X16: the hook throws at the end exactly when some callback threw a
    truthy value, and then it throws the first such value; a callback that
    throws a falsy value ([undefined], 0, the empty string) is logged but
    does not make the hook fail. *)
Theorem X16_afterEach_throws_first_truthy_error
    (state : option deferred.TestState) (registry : deferred.Registry) :
  (deferred.afterEach state registry).2
  = deferred.firstTruthy state
      (deferred.deferredItems registry ++ deferred.deferredToLastItems registry).
Proof.
  unfold deferred.afterEach.
  pose proof (runDeferred_firstError state
                (deferred.deferredItems registry
                   ++ deferred.deferredToLastItems registry)
                deferred.undefined) as Hfirst.
  destruct (deferred.runDeferred state _ deferred.undefined)
    as [steps final].
  cbn [fst snd deferred.truthy] in *. done.
Qed.

(** * The server's overlay follows the editor's buffer *)

Lemma applyRequests_app (applyBatch : list Replacement -> string -> string)
    (store : gmap string string)
    (rs rs' : list AS.AnalysisUpdateContentRequest) :
  Overlays.applyRequests applyBatch store (rs ++ rs')
  = Overlays.applyRequests applyBatch
      (Overlays.applyRequests applyBatch store rs) rs'.
Proof. unfold Overlays.applyRequests. apply fold_left_app. Qed.

Lemma applyRequest_single (applyBatch : list Replacement -> string -> string)
    (store : gmap string string) (p : string) (o : AS.ContentOverlay) :
  Overlays.applyRequest applyBatch store {| AS.files := {[ p := o ]} |}
  = Overlays.applyOverlay applyBatch p o store.
Proof. unfold Overlays.applyRequest. cbn [AS.files]. apply map_fold_singleton. Qed.

Lemma fire_uri (applyBatch : list Replacement -> string -> string)
    (td : vs.TextDocument)
    (batches : list (list vs.TextDocumentContentChangeEvent)) :
  vs.uri (Editor.fire applyBatch td batches).2 = vs.uri td.
Proof.
  revert td. induction batches as [|changes batches IH]; intros td; [done|].
  rewrite fire_cons. cbn [snd]. by rewrite IH.
Qed.

Section Lifecycle.

Variable applyBatch : list Replacement -> string -> string.

Hypothesis applyBatch_nil : forall content, applyBatch [] content = content.

Variable env : Env.

Lemma changes_keep_overlay_in_step (this : t) (td : vs.TextDocument)
    (batches : list (list vs.TextDocumentContentChangeEvent))
    (store : gmap string string) :
  Forall (fun e => isAnalyzable env (vs.document e) = true)
         (Editor.fire applyBatch td batches).1 ->
  store !! fsPath env (vs.uri td) = Some (vs.getText td) ->
  Overlays.applyRequests applyBatch store
    (overlaysOf
       (run this
          (map (fun e => (env, DidChangeTextDocument e))
               (Editor.fire applyBatch td batches).1)).2)
    !! fsPath env (vs.uri td)
  = Some (vs.getText (Editor.fire applyBatch td batches).2)
  /\ forall q : string,
       q <> fsPath env (vs.uri td) ->
       Overlays.applyRequests applyBatch store
         (overlaysOf
            (run this
               (map (fun e => (env, DidChangeTextDocument e))
                    (Editor.fire applyBatch td batches).1)).2) !! q
       = store !! q.
Proof.
  revert this td store.
  induction batches as [|changes batches IH]; intros this td store Hall Hstore.
  - done.
  - rewrite fire_cons in *. cbn [fst snd map] in *.
    apply Forall_cons in Hall as [Ha Hall]. cbn [vs.document] in Ha.
    rewrite run_cons. cbn [fst snd handle].
    rewrite overlaysOf_app, applyRequests_app.
    set (td' := Editor.edit applyBatch td changes) in *.
    set (store' :=
           Overlays.applyRequests applyBatch store
             (overlaysOf
                (onDidChangeTextDocument env this
                   {| vs.document := td'; vs.contentChanges := changes |}).2)).
    assert (store' !! fsPath env (vs.uri td) = Some (vs.getText td')
            /\ forall q, q <> fsPath env (vs.uri td) -> store' !! q = store !! q)
      as [Hp Hq].
    { subst store'. destruct changes as [|c changes].
      - rewrite onDidChangeTextDocument_empty by done.
        cbn [snd overlaysOf Overlays.applyRequests fold_left].
        split; [|done]. rewrite Hstore. subst td'.
        cbn [Editor.edit vs.getText map]. by rewrite applyBatch_nil.
      - rewrite onDidChangeTextDocument_overlays by done.
        cbn [Overlays.applyRequests fold_left vs.document vs.contentChanges].
        rewrite applyRequest_single. cbn [Overlays.applyOverlay].
        rewrite editReplacement_convertChange.
        change (vs.uri td') with (vs.uri td). split.
        + by rewrite lookup_alter_eq, Hstore.
        + intros q Hne. by rewrite lookup_alter_ne. }
    destruct (IH (onDidChangeTextDocument env this
                    {| vs.document := td'; vs.contentChanges := changes |}).1
                 td' store' Hall Hp) as [IHp IHq].
    change (vs.uri td') with (vs.uri td) in *.
    split; [exact IHp|].
    intros q Hne. by rewrite IHq, Hq.
Qed.

(** X17: follow one analyzable document through its life.  After it is
    opened and the editor has applied any sequence of change batches to
    it, the overlay the server holds for its path is exactly the text in
    the editor's buffer; once it is closed the server holds no overlay for
    it; and the overlays of all other paths are never touched. *)
Theorem X17_overlay_follows_the_buffer (this : t) (td : vs.TextDocument)
    (batches : list (list vs.TextDocumentContentChangeEvent))
    (store : gmap string string) :
  isAnalyzable env td = true ->
  Forall (fun e => isAnalyzable env (vs.document e) = true)
         (Editor.fire applyBatch td batches).1 ->
  isAnalyzable env (Editor.fire applyBatch td batches).2 = true ->
  Overlays.applyRequests applyBatch store
    (overlaysOf (run this (openAndEdit applyBatch env td batches)).2)
    !! fsPath env (vs.uri td)
  = Some (vs.getText (Editor.fire applyBatch td batches).2)
  /\ Overlays.applyRequests applyBatch store
       (overlaysOf
          (run this (openAndEdit applyBatch env td batches
                       ++ [closeAfterEdit applyBatch env td batches])).2)
       !! fsPath env (vs.uri td)
     = None
  /\ forall q : string,
       q <> fsPath env (vs.uri td) ->
       Overlays.applyRequests applyBatch store
         (overlaysOf
            (run this (openAndEdit applyBatch env td batches
                         ++ [closeAfterEdit applyBatch env td batches])).2) !! q
       = store !! q.
Proof.
  intros Ha Hall Hfinal.
  assert (Overlays.applyRequests applyBatch store
            (overlaysOf (run this (openAndEdit applyBatch env td batches)).2)
            !! fsPath env (vs.uri td)
          = Some (vs.getText (Editor.fire applyBatch td batches).2)
          /\ forall q : string,
               q <> fsPath env (vs.uri td) ->
               Overlays.applyRequests applyBatch store
                 (overlaysOf
                    (run this (openAndEdit applyBatch env td batches)).2) !! q
               = store !! q) as [Hp Hq].
  { unfold openAndEdit. rewrite run_cons. cbn [fst snd handle].
    rewrite onDidOpenTextDocument_analyzable by done. cbn [fst snd].
    rewrite overlaysOf_app, applyRequests_app.
    cbn [overlaysOf Overlays.applyRequests fold_left].
    rewrite applyRequest_single. cbn [Overlays.applyOverlay].
    destruct (changes_keep_overlay_in_step this td batches
                (<[fsPath env (vs.uri td) := vs.getText td]> store) Hall)
      as [Hp Hq]; [apply lookup_insert_eq|].
    split; [exact Hp|].
    intros q Hne. rewrite Hq by done. by rewrite lookup_insert_ne. }
  split; [exact Hp|].
  rewrite run_app. cbn [snd]. unfold closeAfterEdit. rewrite run_cons.
  cbn [fst snd handle run].
  rewrite onDidCloseTextDocument_analyzable by done. cbn [snd].
  rewrite app_nil_r, overlaysOf_app, applyRequests_app.
  cbn [overlaysOf Overlays.applyRequests fold_left].
  rewrite applyRequest_single. cbn [Overlays.applyOverlay].
  rewrite fire_uri. split.
  - apply lookup_delete_eq.
  - intros q Hne. rewrite lookup_delete_ne by done. by apply Hq.
Qed.

End Lifecycle.

Lemma X17_overlay_follows_the_buffer_witness :
  vs.getText
    (Editor.fire applySequence (sampleDoc "/ws/main.dart" "a")
       [ [sampleChange]; [] ]).2 = "ab"
  /\ Overlays.applyRequests applySequence ∅
       (overlaysOf
          (run {| filesWarnedAbout := ∅ |}
             (openAndEdit applySequence sampleEnv
                (sampleDoc "/ws/main.dart" "a") [ [sampleChange]; [] ])).2)
       !! fsPath sampleEnv (vs.uri (sampleDoc "/ws/main.dart" "a"))
     = Some (vs.getText
               (Editor.fire applySequence (sampleDoc "/ws/main.dart" "a")
                  [ [sampleChange]; [] ]).2).
Proof.
  split; [vm_compute; reflexivity|].
  destruct (X17_overlay_follows_the_buffer applySequence
              (fun content => eq_refl) sampleEnv {| filesWarnedAbout := ∅ |}
              (sampleDoc "/ws/main.dart" "a") [ [sampleChange]; [] ] ∅)
    as [Hoverlay _]; [reflexivity | repeat constructor | reflexivity |].
  exact Hoverlay.
Defined.

(** * Finding a marked place in the document *)

Lemma string_app_length (a b : string) :
  String.length (a +:+ b) = (String.length a + String.length b)%nat.
Proof. induction a as [|c a IH]; simpl; [done | by rewrite IH]. Qed.

Lemma substring_app_prefix (s : string) (i : nat) (a b : string) :
  String.substring i (String.length a + String.length b) s = a +:+ b ->
  String.substring i (String.length a) s = a.
Proof.
  revert s a. induction i as [|i IHi]; intros s a.
  - revert s. induction a as [|x a IHa]; intros s H.
    + by destruct s.
    + destruct s as [|y s]; [discriminate H|].
      simpl in H. injection H as -> H. simpl. by rewrite (IHa s).
  - destruct s as [|y s]; intros H.
    + simpl in H. destruct a; [done | discriminate H].
    + simpl in *. by apply IHi.
Qed.

Lemma string_app_cons (x : ascii) (a b : string) :
  String x a +:+ b = String x (a +:+ b).
Proof. reflexivity. Qed.

Lemma string_app_assoc (a b c : string) :
  a +:+ b +:+ c = (a +:+ b) +:+ c.
Proof.
  induction a as [|x a IH]; [done|]. by rewrite !string_app_cons, IH.
Qed.

Lemma replaceAll_app (c : ascii) (r a b : string) :
  replaceAll c r (a +:+ b) = replaceAll c r a +:+ replaceAll c r b.
Proof.
  induction a as [|x a IH]; [done|].
  rewrite string_app_cons. cbn [replaceAll].
  case_bool_decide; rewrite IH; [apply string_app_assoc | done].
Qed.

Lemma replaceAll_length (c : ascii) (r s : string) :
  Z.of_nat (String.length (replaceAll c r s))
  = Z.of_nat (String.length s)
    + Z.of_nat (occurrences c s) * (Z.of_nat (String.length r) - 1).
Proof.
  induction s as [|x s IH]; simpl; [lia|].
  case_bool_decide; [rewrite string_app_length|simpl]; lia.
Qed.

Lemma prefix_one_char (c b : ascii) (s : string) :
  String.prefix (String c "") (String b s) = bool_decide (c = b).
Proof.
  case_bool_decide as Hcb.
  - apply String.prefix_correct. subst. simpl. by destruct s.
  - apply not_true_is_false. intros H.
    apply String.prefix_correct in H. simpl in H. by injection H.
Qed.

Lemma index_one_char (c : ascii) (s : string) (k : nat) :
  String.index 0 (String c "") s = Some k ->
  exists pre post : string,
    s = pre +:+ String c post
    /\ String.length pre = k
    /\ String.index 0 (String c "") pre = None
    /\ removeFirst c s = pre +:+ post.
Proof.
  revert k. induction s as [|b s IH]; intros k; [discriminate|].
  cbn [String.index]. rewrite prefix_one_char.
  case_bool_decide as Hcb.
  - intros [= <-]. subst b. exists "", s. cbn [removeFirst].
    by rewrite bool_decide_eq_true_2.
  - destruct (String.index 0 (String c "") s) as [k'|]; [|discriminate].
    intros [= <-]. destruct (IH k' eq_refl) as (pre & post & -> & <- & Hno & Hrm).
    exists (String b pre), post. cbn [removeFirst String.index].
    rewrite prefix_one_char, Hno, Hrm.
    rewrite !bool_decide_eq_false_2 by congruence. done.
Qed.

Lemma positionOf_passes (documentText documentEol searchText : string)
    (offset : Z) :
  positionOf documentText documentEol searchText = Passes offset ->
  exists (pre post : string) (matched : nat),
    searchText = pre +:+ String caret post
    /\ indexOf pre (String caret "") = -1
    /\ String.index 0 (replaceAll newline documentEol (pre +:+ post))
         documentText = Some matched
    /\ offset = Z.of_nat matched + Z.of_nat (String.length pre).
Proof.
  unfold positionOf, indexOf.
  destruct (String.index 0 (String caret "") searchText) as [k|] eqn:Hcaret;
    [|discriminate].
  destruct (index_one_char caret searchText k Hcaret)
    as (pre & post & -> & <- & Hno & Hrm).
  rewrite Hrm.
  destruct (Z.of_nat (String.length pre) =? -1) eqn:Hk;
    [apply Z.eqb_eq in Hk; lia|].
  destruct (String.index 0 _ documentText) as [matched|] eqn:Hm;
    [|discriminate].
  destruct (Z.of_nat matched =? -1) eqn:Hm'; [apply Z.eqb_eq in Hm'; lia|].
  intros [= <-]. exists pre, post, matched. by rewrite Hno.
Qed.

(** X18: when [positionOf] returns, the search text has a caret; the text
    without its first caret (line breaks written as the document's) occurs
    in the document; the occurrence used is the first one; and the offset
    returned is the start of that occurrence plus the number of characters
    before the caret in the search text. *)
Theorem X18_positionOf_finds_first_occurrence
    (documentText documentEol searchText : string) (offset : Z) :
  positionOf documentText documentEol searchText = Passes offset ->
  exists (pre post : string) (matched : nat),
    searchText = pre +:+ String caret post
    /\ indexOf pre (String caret "") = -1
    /\ String.substring matched
         (String.length (replaceAll newline documentEol (pre +:+ post)))
         documentText
       = replaceAll newline documentEol (pre +:+ post)
    /\ (forall earlier : nat,
          (earlier < matched)%nat ->
          String.substring earlier
            (String.length (replaceAll newline documentEol (pre +:+ post)))
            documentText
          <> replaceAll newline documentEol (pre +:+ post))
    /\ offset = Z.of_nat matched + Z.of_nat (String.length pre).
Proof.
  intros Hpass.
  destruct (positionOf_passes _ _ _ _ Hpass)
    as (pre & post & matched & Hsearch & Hno & Hindex & Hoffset).
  exists pre, post, matched. split; [done|]. split; [done|].
  split; [by apply (String.index_correct1 0)|]. split; [|done].
  intros earlier Hlt.
  apply (String.index_correct2 0 matched); [done | lia | done].
Qed.

Lemma X18_positionOf_finds_first_occurrence_witness :
  positionOf "main() { print(1); print(2); }" (String newline "") "print(^2"
  = Passes 25
  /\ exists (pre post : string) (matched : nat),
       "print(^2" = pre +:+ String caret post
       /\ indexOf pre (String caret "") = -1
       /\ String.substring matched
            (String.length
               (replaceAll newline (String newline "") (pre +:+ post)))
            "main() { print(1); print(2); }"
          = replaceAll newline (String newline "") (pre +:+ post)
       /\ (forall earlier : nat,
             (earlier < matched)%nat ->
             String.substring earlier
               (String.length
                  (replaceAll newline (String newline "") (pre +:+ post)))
               "main() { print(1); print(2); }"
             <> replaceAll newline (String newline "") (pre +:+ post))
       /\ 25 = Z.of_nat matched + Z.of_nat (String.length pre).
Proof.
  split; [vm_compute; reflexivity|].
  apply (X18_positionOf_finds_first_occurrence
           "main() { print(1); print(2); }" (String newline "") "print(^2" 25).
  vm_compute. reflexivity.
Defined.

(** X19: the place [positionOf] returns against the place its caret
    marks.  In the occurrence found, the text before the caret ends at the
    returned offset plus one less than the length of the document's line
    break for every line break before the caret: the offset is exact when
    the document breaks lines with a single character or no line break
    precedes the caret, and with two-character line breaks it falls short
    by the number of line breaks before the caret. *)
Theorem X19_positionOf_offset_and_line_breaks
    (documentText documentEol searchText : string) (offset : Z) :
  positionOf documentText documentEol searchText = Passes offset ->
  exists (pre post : string) (matched : nat),
    searchText = pre +:+ String caret post
    /\ indexOf pre (String caret "") = -1
    /\ String.substring matched
         (String.length (replaceAll newline documentEol pre)) documentText
       = replaceAll newline documentEol pre
    /\ Z.of_nat matched
       + Z.of_nat (String.length (replaceAll newline documentEol pre))
       = offset
         + Z.of_nat (occurrences newline pre)
           * (Z.of_nat (String.length documentEol) - 1).
Proof.
  intros Hpass.
  destruct (positionOf_passes _ _ _ _ Hpass)
    as (pre & post & matched & Hsearch & Hno & Hindex & Hoffset).
  exists pre, post, matched. split; [done|]. split; [done|].
  split.
  - apply String.index_correct1 in Hindex.
    rewrite replaceAll_app, string_app_length in Hindex.
    by apply substring_app_prefix in Hindex.
  - rewrite replaceAll_length. lia.
Qed.

Lemma X19_positionOf_offset_and_line_breaks_witness :
  positionOf
    ("a" +:+ String "013" (String newline "b"))
    (String "013" (String newline ""))
    ("a" +:+ String newline "^b")
  = Passes 2
  /\ exists (pre post : string) (matched : nat),
       "a" +:+ String newline "^b" = pre +:+ String caret post
       /\ indexOf pre (String caret "") = -1
       /\ String.substring matched
            (String.length
               (replaceAll newline (String "013" (String newline "")) pre))
            ("a" +:+ String "013" (String newline "b"))
          = replaceAll newline (String "013" (String newline "")) pre
       /\ Z.of_nat matched
          + Z.of_nat
              (String.length
                 (replaceAll newline (String "013" (String newline "")) pre))
          = 2 + Z.of_nat (occurrences newline pre)
                * (Z.of_nat
                     (String.length (String "013" (String newline ""))) - 1).
Proof.
  split; [vm_compute; reflexivity|].
  apply (X19_positionOf_offset_and_line_breaks
           ("a" +:+ String "013" (String newline "b"))
           (String "013" (String newline ""))
           ("a" +:+ String newline "^b") 2).
  vm_compute. reflexivity.
Defined.

(** * Checks on symbols and completions *)

Lemma find_first {A : Type} (f : A -> bool) (l : list A) (x : A) :
  List.find f l = Some x ->
  exists before after : list A,
    l = before ++ x :: after
    /\ Forall (fun y => f y = false) before
    /\ f x = true.
Proof.
  induction l as [|y l IH]; [discriminate|]. cbn [List.find].
  destruct (f y) eqn:Hy.
  - intros [= ->]. by exists [], l.
  - intros Hfind. destruct (IH Hfind) as (before & after & -> & Hall & Hx).
    exists (y :: before), after. split; [done|]. split; [|done].
    by constructor.
Qed.

Lemma find_none_weaker {A : Type} (f g : A -> bool) (l : list A) :
  (forall x, g x = true -> f x = true) ->
  List.find f l = None -> List.find g l = None.
Proof.
  intros Hweak. induction l as [|y l IH]; [done|]. cbn [List.find].
  destruct (f y) eqn:Hf; [discriminate|]. intros Hfind.
  destruct (g y) eqn:Hg; [|by apply IH].
  apply Hweak in Hg. congruence.
Qed.

(** X20: [ensureSymbol] looks at the first symbol of the list that has
    the name, kind and container asked for, and at no other.  When the
    check holds and a range is expected (the default), that first symbol
    is in the file asked for and its range neither starts nor ends on
    line 0; so a symbol on the first line of a file never passes. *)
Theorem X20_ensureSymbol_checks_first_match
    (fsPath : vs.Uri -> string) (docUri : vs.Uri)
    (symbols : list SymbolInformation) (name : string) (kind : Z)
    (containerName : option string) (uri : option vs.Uri)
    (shouldHaveRange : option bool) :
  default true shouldHaveRange = true ->
  ensureSymbol fsPath docUri symbols name kind containerName uri
    shouldHaveRange = Holds ->
  exists (before after : list SymbolInformation) (symbol : SymbolInformation)
         (r : Range),
    symbols = before ++ symbol :: after
    /\ Forall (fun f => symbolMatches name kind containerName f = false) before
    /\ symbolMatches name kind containerName symbol = true
    /\ fsPath (helpers.uri (location symbol)) = fsPath (default docUri uri)
    /\ range (location symbol) = Some r
    /\ line (start r) <> 0
    /\ line (end_ r) <> 0.
Proof.
  intros Hrange. unfold ensureSymbol. rewrite Hrange.
  destruct (List.find _ symbols) as [symbol|] eqn:Hfind; [|discriminate].
  destruct (find_first _ _ _ Hfind) as (before & after & -> & Hbefore & Hmatch).
  case_bool_decide as Hfile; cbn [negb]; [|discriminate].
  destruct (range (location symbol)) as [r|] eqn:Hr; [|discriminate].
  destruct (line (start r) =? 0) eqn:Hstart; [discriminate|].
  destruct (line (end_ r) =? 0) eqn:Hend; [discriminate|].
  intros _. exists before, after, symbol, r.
  apply Z.eqb_neq in Hstart, Hend. done.
Qed.

Lemma X20_ensureSymbol_checks_first_match_witness :
  ensureSymbol vs.path {| vs.scheme := "file"; vs.path := "/ws/main.dart" |}
    [ {| name := "main"; kind := 11; containerName := None;
         location :=
           {| uri := {| vs.scheme := "file"; vs.path := "/ws/main.dart" |};
              range := Some {| start := {| line := 0; character := 0 |};
                               end_ := {| line := 2; character := 1 |} |} |} |} ]
    "main" 11 None None None
  = Fails 6
  /\ exists (before after : list SymbolInformation)
            (symbol : SymbolInformation) (r : Range),
       [ {| name := "main"; kind := 11; containerName := Some "";
            location :=
              {| uri := {| vs.scheme := "file"; vs.path := "/ws/main.dart" |};
                 range := Some {| start := {| line := 1; character := 0 |};
                                  end_ := {| line := 3; character := 1 |} |} |} |} ]
       = before ++ symbol :: after
       /\ Forall (fun f => symbolMatches "main" 11 None f = false) before
       /\ symbolMatches "main" 11 None symbol = true
       /\ vs.path (helpers.uri (location symbol))
          = vs.path
              (default {| vs.scheme := "file"; vs.path := "/ws/main.dart" |} None)
       /\ range (location symbol) = Some r
       /\ line (start r) <> 0
       /\ line (end_ r) <> 0.
Proof.
  split; [vm_compute; reflexivity|].
  apply (X20_ensureSymbol_checks_first_match vs.path
           {| vs.scheme := "file"; vs.path := "/ws/main.dart" |}
           [ {| name := "main"; kind := 11; containerName := Some "";
                location :=
                  {| uri := {| vs.scheme := "file"; vs.path := "/ws/main.dart" |};
                     range := Some {| start := {| line := 1; character := 0 |};
                                      end_ := {| line := 3; character := 1 |} |} |} |} ]
           "main" 11 None None None);
    [reflexivity | vm_compute; reflexivity].
Defined.

(** X21: [ensureNoCompletion] and [ensureCompletion] never both hold for
    the same items, kind and label: when no item of that kind has the
    label as its label or filter text, [ensureCompletion] fails at its
    first assertion, whatever filter text and documentation it is asked
    for. *)
Theorem X21_ensureNoCompletion_excludes_ensureCompletion
    (trim : string -> string) (items : list CompletionItem) (kind : Z)
    (label : string) (filterText documentation : option string) :
  ensureNoCompletion items kind label = Holds ->
  ensureCompletion trim items kind label filterText documentation = Fails 1.
Proof.
  unfold ensureNoCompletion, ensureCompletion.
  destruct (List.find _ items) as [item|] eqn:Hnone; [discriminate|].
  intros _.
  rewrite (find_none_weaker _ _ items) with (2 := Hnone); [done|].
  intros item Hitem.
  apply andb_true_iff in Hitem as [Hitem Hkind].
  apply andb_true_iff in Hitem as [Hlabel _].
  by rewrite Hlabel, Hkind.
Qed.

Lemma X21_ensureNoCompletion_excludes_ensureCompletion_witness :
  ensureCompletion (fun s => s)
    [ {| label := "print"; filterText := None; itemKind := Some 2;
         documentation := None |} ] 14 "print" None None
  = Fails 1.
Proof.
  apply (X21_ensureNoCompletion_excludes_ensureCompletion (fun s => s)
           [ {| label := "print"; filterText := None; itemKind := Some 2;
                documentation := None |} ] 14 "print" None None).
  vm_compute. reflexivity.
Defined.

(** * Finding a marked stretch in the document *)

Lemma index_first_char (c : ascii) (pre post : string) :
  occurrences c pre = 0%nat ->
  String.index 0 (String c "") (pre +:+ String c post)
  = Some (String.length pre).
Proof.
  induction pre as [|x pre IH]; intros Hocc.
  - change ("" +:+ String c post) with (String c post).
    cbn [String.index]. rewrite prefix_one_char.
    by rewrite bool_decide_eq_true_2.
  - rewrite string_app_cons. cbn [String.index occurrences] in *.
    rewrite prefix_one_char.
    destruct (decide (x = c)) as [->|Hx].
    + rewrite bool_decide_eq_true_2 in Hocc by done. lia.
    + rewrite bool_decide_eq_false_2 in Hocc by done.
      rewrite bool_decide_eq_false_2 by congruence.
      by rewrite IH.
Qed.

Lemma lastIndexFrom_absent (c : ascii) (s : string) (i : nat) (last : Z) :
  occurrences c s = 0%nat ->
  lastIndexFrom (String c "") s i last = last.
Proof.
  revert i. induction s as [|x s IH]; intros i Hocc; [done|].
  cbn [lastIndexFrom occurrences] in *. rewrite prefix_one_char.
  destruct (decide (x = c)) as [->|Hx].
  - rewrite bool_decide_eq_true_2 in Hocc by done. lia.
  - rewrite bool_decide_eq_false_2 in Hocc by done.
    rewrite bool_decide_eq_false_2 by congruence. by apply IH.
Qed.

Lemma lastIndexFrom_last_char (c : ascii) (pre post : string) (i : nat)
    (last : Z) :
  occurrences c post = 0%nat ->
  lastIndexFrom (String c "") (pre +:+ String c post) i last
  = Z.of_nat (i + String.length pre).
Proof.
  intros Hocc. revert i last. induction pre as [|x pre IH]; intros i last.
  - change ("" +:+ String c post) with (String c post).
    cbn [lastIndexFrom]. rewrite prefix_one_char.
    rewrite bool_decide_eq_true_2 by done.
    rewrite lastIndexFrom_absent by done. cbn. lia.
  - rewrite string_app_cons. cbn [lastIndexFrom]. rewrite IH. cbn. lia.
Qed.

Lemma lastIndexFrom_nonneg (needle s : string) (i : nat) (last : Z) :
  (0 <= last \/ exists k, String.index 0 needle s = Some k) ->
  0 <= lastIndexFrom needle s i last.
Proof.
  revert i last. induction s as [|x s IH]; intros i last Hfound.
  - cbn [lastIndexFrom]. destruct Hfound as [Hlast|[k Hk]].
    + destruct (String.prefix needle ""); lia.
    + destruct needle; [|discriminate Hk].
      change (String.prefix "" "") with true. cbn. lia.
  - cbn [lastIndexFrom]. apply IH.
    destruct (String.prefix needle (String x s)) eqn:Hp; [left; lia|].
    destruct Hfound as [Hlast|[k Hk]]; [by left|]. right.
    cbn [String.index] in Hk. rewrite Hp in Hk.
    destruct (String.index 0 needle s) as [k'|]; [by exists k' | discriminate].
Qed.

Lemma replaceAll_absent (c : ascii) (r s : string) :
  occurrences c s = 0%nat -> replaceAll c r s = s.
Proof.
  induction s as [|x s IH]; intros Hocc; [done|].
  cbn [replaceAll occurrences] in *.
  destruct (decide (x = c)) as [->|Hx].
  - rewrite bool_decide_eq_true_2 in Hocc by done. lia.
  - rewrite bool_decide_eq_false_2 in Hocc by done.
    rewrite bool_decide_eq_false_2 by done. by rewrite IH.
Qed.

Lemma replaceAll_same (c : ascii) (s : string) :
  replaceAll c (String c "") s = s.
Proof.
  induction s as [|x s IH]; [done|]. cbn [replaceAll].
  case_bool_decide; rewrite IH; [by subst | done].
Qed.

Lemma substring_app_suffix (s : string) (i : nat) (a b : string) :
  String.substring i (String.length a + String.length b) s = a +:+ b ->
  String.substring (i + String.length a) (String.length b) s = b.
Proof.
  revert s a. induction i as [|i IHi]; intros s a.
  - revert s. induction a as [|x a IHa]; intros s H; [done|].
    destruct s as [|y s]; [discriminate H|].
    rewrite string_app_cons in H. simpl in H. injection H as -> H.
    simpl. by apply (IHa s).
  - destruct s as [|y s]; intros H.
    + simpl in H. destruct a; [|discriminate H].
      change ("" +:+ b) with b in H. subst b. done.
    + simpl in *. by apply IHi.
Qed.

(** X22: the assertion "Couldn't find a second |" of [rangeOf] can never
    fail: whenever [rangeOf] ends in an assertion error, it is the one
    about no bar at all or the one about the text not being found in the
    document. *)
Theorem X22_rangeOf_second_bar_is_never_missed
    (documentText documentEol searchText : string) (inside : option (Z * Z))
    (message : string) :
  rangeOf documentText documentEol searchText inside
  = AssertionError message ->
  message = "Couldn't find a | in search text (" +:+ searchText +:+ ")"
  \/ message = "Couldn't find string " +:+ replaceAll bar "" searchText
                 +:+ " in the document to get range of".
Proof.
  unfold rangeOf, indexOf, lastIndexOf.
  destruct (String.index 0 (String bar "") searchText) as [k|] eqn:Hfirst.
  - destruct (Z.of_nat k =? -1) eqn:Hk; [apply Z.eqb_eq in Hk; lia|].
    pose proof (lastIndexFrom_nonneg (String bar "") searchText 0 (-1)
                  (or_intror (ex_intro _ k Hfirst))) as Hlast.
    destruct (lastIndexFrom _ searchText 0 (-1) =? -1) eqn:Hl;
      [apply Z.eqb_eq in Hl; lia|].
    cbv zeta.
    match goal with
    | |- (if ?b then _ else _) = _ -> _ => destruct b; [|discriminate]
    end.
    intros [= <-]. by right.
  - change (-1 =? -1) with true. cbn match. intros [= <-]. by left.
Qed.

Lemma X22_rangeOf_second_bar_is_never_missed_witness :
  "Couldn't find string print in the document to get range of"
  = "Couldn't find a | in search text (" +:+ "|print" +:+ ")"
  \/ "Couldn't find string print in the document to get range of"
     = "Couldn't find string " +:+ replaceAll bar "" "|print"
         +:+ " in the document to get range of".
Proof.
  apply (X22_rangeOf_second_bar_is_never_missed "main() {}"
           (String newline "") "|print" None).
  vm_compute. reflexivity.
Defined.



Lemma replaceAll_bars (a b c : string) :
  occurrences bar a = 0%nat ->
  occurrences bar b = 0%nat ->
  occurrences bar c = 0%nat ->
  replaceAll bar "" (a +:+ String bar (b +:+ String bar c)) = a +:+ b +:+ c.
Proof.
  intros Ha Hb Hc.
  rewrite replaceAll_app, (replaceAll_absent bar "" a) by done.
  cbn [replaceAll]. rewrite bool_decide_eq_true_2 by done.
  change ("" +:+ replaceAll bar "" (b +:+ String bar c))
    with (replaceAll bar "" (b +:+ String bar c)).
  rewrite replaceAll_app, (replaceAll_absent bar "" b) by done.
  cbn [replaceAll]. rewrite bool_decide_eq_true_2 by done.
  change ("" +:+ replaceAll bar "" c) with (replaceAll bar "" c).
  by rewrite (replaceAll_absent bar "" c).
Qed.

Lemma lastIndexFrom_two_bars (a b c : string) :
  occurrences bar c = 0%nat ->
  lastIndexFrom (String bar "") (a +:+ String bar (b +:+ String bar c)) 0 (-1)
  = Z.of_nat (String.length a + S (String.length b)).
Proof.
  intros Hc.
  change (a +:+ String bar (b +:+ String bar c))
    with (a +:+ String bar b +:+ String bar c).
  rewrite string_app_assoc, lastIndexFrom_last_char by done.
  rewrite string_app_length. cbn [String.length]. f_equal.
Qed.

(** X24: the intended use of [rangeOf].  For a search text with exactly
    two bars and a document whose line break is a single newline, the
    range returned covers, in the occurrence found, exactly the text
    between the bars: it starts where that text starts and is as long as
    that text. *)
Theorem X24_rangeOf_covers_the_marked_text
    (documentText a b c : string) (inside : option (Z * Z)) (first last : Z) :
  occurrences bar a = 0%nat ->
  occurrences bar b = 0%nat ->
  occurrences bar c = 0%nat ->
  rangeOf documentText (String newline "")
    (a +:+ String bar (b +:+ String bar c)) inside
  = Passes (first, last) ->
  0 <= first
  /\ last = first + Z.of_nat (String.length b)
  /\ String.substring (Z.to_nat first) (String.length b) documentText = b
  /\ String.substring (Z.to_nat first - String.length a)
       (String.length (a +:+ b +:+ c)) documentText
     = a +:+ b +:+ c.
Proof.
  intros Ha Hb Hc. unfold rangeOf, indexOf, lastIndexOf, indexOfFrom.
  rewrite index_first_char by done.
  rewrite lastIndexFrom_two_bars by done.
  rewrite replaceAll_bars, replaceAll_same by done.
  destruct (Z.of_nat (String.length a) =? -1) eqn:H1;
    [apply Z.eqb_eq in H1; lia|].
  destruct (Z.of_nat (String.length a + S (String.length b)) =? -1)
    eqn:H2; [apply Z.eqb_eq in H2; lia|].
  cbv zeta.
  destruct (String.index _ (a +:+ b +:+ c) documentText) as [m|] eqn:Hm.
  - match goal with
    | |- context [if ?g then -1 else Z.of_nat m] => destruct g
    end; [change (-1 =? -1) with true; discriminate|].
    destruct (Z.of_nat m =? -1) eqn:H3; [apply Z.eqb_eq in H3; lia|].
    intros [= <- <-].
    apply String.index_correct1 in Hm.
    replace (Z.to_nat (Z.of_nat m + Z.of_nat (String.length a)))
      with (m + String.length a)%nat by lia.
    split; [lia|]. split; [lia|]. split.
    + rewrite string_app_length in Hm.
      apply substring_app_suffix in Hm.
      rewrite string_app_length in Hm.
      by apply substring_app_prefix in Hm.
    + by replace (m + String.length a - String.length a)%nat with m by lia.
  - match goal with
    | |- context [if ?g then -1 else -1] => destruct g
    end; change (-1 =? -1) with true; discriminate.
Qed.

Lemma X24_rangeOf_covers_the_marked_text_witness :
  rangeOf "main() { print(1); }" (String newline "") "print(|1|);" None
  = Passes (15, 16)
  /\ 0 <= 15
  /\ 16 = 15 + Z.of_nat (String.length "1")
  /\ String.substring (Z.to_nat 15) (String.length "1") "main() { print(1); }"
     = "1"
  /\ String.substring (Z.to_nat 15 - String.length "print(")
       (String.length ("print(" +:+ "1" +:+ ");")) "main() { print(1); }"
     = "print(" +:+ "1" +:+ ");".
Proof.
  split; [vm_compute; reflexivity|].
  apply (X24_rangeOf_covers_the_marked_text "main() { print(1); }"
           "print(" "1" ");" None 15 16);
    vm_compute; reflexivity.
Defined.
